(** * Image service of the daemon: commit, release, disk usage, transfer limits

    A shallow embedding of
      - daemon/images/image_commit.go  (CommitImage, exportContainerRw),
      - daemon/images/service.go       (ReleaseLayer, ImageDiskUsage,
                                        getLayerRefs, UpdateConfig),
      - daemon/internal/builder-next/worker/worker.go (getRef),
    together with the properties the specification states about them.

    The layer store, the image store, the reference store and the cache
    manager are Go interfaces: their behaviour is a parameter here (a type
    class over an abstract world [W]), and the embedded functions record
    every call they make on them in a trace. *)

From Equations Require Import Equations.
From stdpp Require Import gmap strings list fin_maps pretty.
From Stdlib Require Import ZArith Lia.

Open Scope Z_scope.

(** ** Errors *)

(** Go error values: the sentinels the code tests for, plain messages, and
    wrapping (errors.Wrapf, fmt.Errorf with %w) which keeps the cause. *)
Inductive error : Type :=
| ErrMountDoesNotExist            (* layer.ErrMountDoesNotExist *)
| ErrNotExist                     (* os.ErrNotExist *)
| ErrCanceled                     (* context.Canceled *)
| ErrDeadlineExceeded             (* context.DeadlineExceeded *)
| ErrorString (msg : string)      (* errors.New / errors.Errorf *)
| Wrapped (msg : string) (cause : error).

#[global] Instance error_eq_dec : EqDecision error.
Proof. solve_decision. Defined.

(** errors.Is: the target is looked for along the chain of causes. *)
Fixpoint errors_Is (err target : error) : bool :=
  if decide (err = target) then true
  else match err with
       | Wrapped _ cause => errors_Is cause target
       | _ => false
       end.

(** Result of a fallible call: Go's (value, error) pair with the error
    tested. *)
Inductive result (A : Type) : Type :=
| Ok (a : A)
| Err (e : error).
Arguments Ok {A} a.
Arguments Err {A} e.

Definition is_ok {A} (r : result A) : bool :=
  match r with Ok _ => true | Err _ => false end.

Definition is_nil (e : option error) : bool :=
  match e with None => true | Some _ => false end.

(** context.Context as the code observes it: the value of ctx.Err() (nil
    while the context is live) at the n-th observation. *)
Definition Context : Type := nat -> option error.

Definition background : Context := fun _ => None.

(** ** 64-bit integers *)

(** int64 arithmetic wraps around (two's complement). *)
Definition wrap64 (z : Z) : Z := (z + 2 ^ 63) mod 2 ^ 64 - 2 ^ 63.

Definition add64 (a b : Z) : Z := wrap64 (a + b).

(** ** Identifiers and records *)

Definition DiffID : Type := string.
Definition ChainID : Type := string.
Definition ImageID : Type := string.

(** image.RootFS *)
Record RootFS : Type := mkRootFS {
  rootfs_Type : string;
  DiffIDs : list DiffID
}.

(** image.NewRootFS() *)
Definition NewRootFS : RootFS := mkRootFS "layers" [].

(** RootFS.Append (pointer receiver) *)
Definition RootFS_Append (r : RootFS) (id : DiffID) : RootFS :=
  mkRootFS (rootfs_Type r) (DiffIDs r ++ [id]).

(** image.Image, reduced to what the image service reads. *)
Record Image : Type := mkImage {
  img_RootFS : RootFS;
  img_Config : string
}.

(** layer.Layer: the methods the image service calls. *)
Record Layer : Type := mkLayer {
  layer_ChainID : ChainID;
  layer_DiffID : DiffID;
  layer_DiffSize : Z
}.

(** Handle of a read-write layer held by a container. *)
Record RWLayer : Type := mkRWLayer { rwl_Name : string }.

(** Handle of the tar stream of a read-write layer. *)
Record Archive : Type := mkArchive { arch_Of : RWLayer }.

(** layer.Metadata *)
Record Metadata : Type := mkMetadata { md_ChainID : ChainID }.

(** backend.CommitConfig *)
Record CommitConfig : Type := mkCommitConfig {
  Author : string;
  Comment : string;
  Config : string;
  ContainerConfig : string;
  ContainerID : string;
  ContainerMountLabel : string;
  ContainerOS : string;
  ParentImageID : string
}.

(** image.ChildConfig *)
Record ChildConfig : Type := mkChildConfig {
  cc_ContainerID : string;
  cc_Author : string;
  cc_Comment : string;
  cc_ContainerConfig : string;
  cc_Config : string;
  cc_DiffID : DiffID
}.

(** container.Container, reduced to what CreateLayer reads (StorageOpt is the
    field of its HostConfig). *)
Record Container : Type := mkContainer {
  ctr_ID : string;
  ctr_ImageID : ImageID;
  ctr_MountLabel : string;
  ctr_StorageOpt : gmap string string
}.

(** layer.CreateRWLayerOpts; the init function is named, not run. *)
Record CreateRWLayerOpts : Type := mkCreateRWLayerOpts {
  opt_MountLabel : string;
  opt_InitFunc : string;
  opt_StorageOpt : gmap string string
}.

(** The read-closer exportContainerRw returns: the archive with the closer
    that captured the read-write layer. *)
Record ReadCloser : Type := mkReadCloser {
  rc_archive : Archive;
  rc_rwlayer : RWLayer
}.

(** An entry of the events sink: (action, object id, object name). *)
Inductive Action : Type := ActionCreate | ActionDelete.

Record Event : Type := mkEvent {
  ev_action : Action;
  ev_id : string;
  ev_name : string
}.

(** ** The stores, as interfaces *)

(** layer.Store and the layer.RWLayer methods, over a world [W]. *)
Class LayerStore (W : Type) : Type := {
  CreateRWLayer : string -> ChainID -> CreateRWLayerOpts -> W
                  -> result RWLayer * W;
  GetRWLayer : string -> W -> result RWLayer * W;
  ReleaseRWLayer : RWLayer -> W -> (list Metadata * option error) * W;
  Mount : RWLayer -> string -> W -> result string * W;
  Unmount : RWLayer -> W -> option error * W;
  TarStream : RWLayer -> W -> result Archive * W;
  ArchiveClose : Archive -> W -> option error * W;
  Register : ReadCloser -> ChainID -> W -> result Layer * W;
  Release : Layer -> W -> (list Metadata * option error) * W;
  DriverName : W -> string
}.

(** image.Store *)
Class ImageStore (W : Type) : Type := {
  Get : ImageID -> W -> result Image * W;
  Create : string -> W -> result ImageID * W;
  SetBuiltLocally : ImageID -> W -> option error * W;
  SetParent : ImageID -> ImageID -> W -> option error * W
}.

(** The pure helpers of package image the commit uses: the chain ID of a
    root filesystem, the construction of the child image and its JSON
    serialisation. *)
Class ImageCodec : Type := {
  RootFS_ChainID : RootFS -> ChainID;
  NewChildImage : Image -> ChildConfig -> string -> Image;
  json_Marshal : Image -> result string
}.

(** Every call the image service makes on a store, with its outcome. *)
Inductive Call : Type :=
| CCreateRWLayer (name : string) (parent : ChainID) (opts : CreateRWLayerOpts)
                 (ok : bool)
| CGetRWLayer (id : string) (ok : bool)
| CMount (rw : RWLayer) (label : string) (ok : bool)
| CTarStream (rw : RWLayer) (ok : bool)
| CUnmount (rw : RWLayer) (ok : bool)
| CReleaseRWLayer (rw : RWLayer) (ok : bool)
| CArchiveClose (a : Archive)
| CImageGet (id : ImageID) (ok : bool)
| CRegister (parent : ChainID) (res : option Layer)
| CRelease (l : Layer)
| CCreate (config : string) (res : option ImageID)
| CSetBuiltLocally (id : ImageID) (ok : bool)
| CSetParent (id parent : ImageID) (ok : bool)
| CLogInfo (chainID : ChainID).

#[global] Instance RWLayer_eq_dec : EqDecision RWLayer.
Proof. solve_decision. Defined.
#[global] Instance Layer_eq_dec : EqDecision Layer.
Proof. solve_decision. Defined.
#[global] Instance Archive_eq_dec : EqDecision Archive.
Proof. solve_decision. Defined.
#[global] Instance CreateRWLayerOpts_eq_dec : EqDecision CreateRWLayerOpts.
Proof. solve_decision. Defined.
#[global] Instance Call_eq_dec : EqDecision Call.
Proof. solve_decision. Defined.

(** ** State passing

    Stateful code is a function from the state to a value and the next
    state. *)
Definition StateM (S A : Type) : Type := S -> A * S.

Definition ret {S A} (a : A) : StateM S A := fun s => (a, s).

Definition bind {S A B} (m : StateM S A) (k : A -> StateM S B) : StateM S B :=
  fun s => let '(a, s') := m s in k a s'.

Notation "x <- m ;; k" := (bind m (fun x => k))
  (at level 100, m at next level, right associativity).

Section ImageServiceModel.
Context {W : Type} `{!LayerStore W, !ImageStore W, !ImageCodec}.

(** The state a call of the image service runs in: the world of the
    stores, the calls made so far, the events sink, and the closed flag
    of the read-closer (ioutils.ReadCloserWrapper). *)
Record State : Type := mkState {
  world : W;
  calls : list Call;
  events : list Event;
  rcClosed : bool
}.

Definition M (A : Type) : Type := StateM State A.

(** Go's defer: [d] runs when [body] returns, whatever it returns. *)
Definition defer {A} (d : M unit) (body : M A) : M A :=
  r <- body ;;
  _ <- d ;;
  ret r.

(** Run a store operation on the world and record the call. *)
Definition call {A} (op : W -> A * W) (entry : A -> Call) : M A :=
  fun s =>
    let '(a, w') := op (world s) in
    (a, mkState w' (calls s ++ [entry a]) (events s) (rcClosed s)).

Definition set_rcClosed (b : bool) : M unit :=
  fun s => (tt, mkState (world s) (calls s) (events s) b).

Definition get_rcClosed : M bool := fun s => (rcClosed s, s).

Definition layerStore_CreateRWLayer (name : string) (parent : ChainID)
    (opts : CreateRWLayerOpts) : M (result RWLayer) :=
  call (CreateRWLayer name parent opts)
       (fun r => CCreateRWLayer name parent opts (is_ok r)).

Definition layerStore_GetRWLayer (id : string) : M (result RWLayer) :=
  call (GetRWLayer id) (fun r => CGetRWLayer id (is_ok r)).

Definition layerStore_ReleaseRWLayer (rw : RWLayer)
  : M (list Metadata * option error) :=
  call (ReleaseRWLayer rw) (fun r => CReleaseRWLayer rw (is_nil (snd r))).

Definition rwlayer_Mount (rw : RWLayer) (label : string) : M (result string) :=
  call (Mount rw label) (fun r => CMount rw label (is_ok r)).

Definition rwlayer_Unmount (rw : RWLayer) : M (option error) :=
  call (Unmount rw) (fun r => CUnmount rw (is_nil r)).

Definition rwlayer_TarStream (rw : RWLayer) : M (result Archive) :=
  call (TarStream rw) (fun r => CTarStream rw (is_ok r)).

Definition archive_Close (a : Archive) : M (option error) :=
  call (ArchiveClose a) (fun _ => CArchiveClose a).

Definition layerStore_Register (rd : ReadCloser) (parent : ChainID)
  : M (result Layer) :=
  call (Register rd parent)
       (fun r => CRegister parent (match r with Ok l => Some l | Err _ => None end)).

Definition imageStore_Get (id : ImageID) : M (result Image) :=
  call (Get id) (fun r => CImageGet id (is_ok r)).

Definition imageStore_Create (config : string) : M (result ImageID) :=
  call (Create config)
       (fun r => CCreate config (match r with Ok id => Some id | Err _ => None end)).

Definition imageStore_SetBuiltLocally (id : ImageID) : M (option error) :=
  call (SetBuiltLocally id) (fun r => CSetBuiltLocally id (is_nil r)).

Definition imageStore_SetParent (id parent : ImageID) : M (option error) :=
  call (SetParent id parent) (fun r => CSetParent id parent (is_nil r)).

(** Modelled from the spec: layer.ReleaseAndLog is not among the sources;
    it releases the layer reference on the layer store and only logs the
    outcome. *)
Definition layer_ReleaseAndLog (l : Layer) : M unit :=
  _ <- call (Release l) (fun _ => CRelease l) ;;
  ret tt.

(** Modelled from the spec: LogImageEvent is not among the sources; the
    events sink accepts (action, object id, object name) and delivery
    cannot fail the operation. *)
Definition LogImageEvent (imageID refName : string) (action : Action) : M unit :=
  fun s => (tt, mkState (world s) (calls s)
                        (events s ++ [mkEvent action imageID refName])
                        (rcClosed s)).

(** The closer exportContainerRw hands to NewReadCloserWrapper. *)
Definition rwTar_closer (archive : Archive) (rwlayer : RWLayer)
  : M (option error) :=
  _ <- archive_Close archive ;;
  err <- rwlayer_Unmount rwlayer ;;
  _ <- layerStore_ReleaseRWLayer rwlayer ;;
  ret err.

(** Modelled from the spec: ioutils.NewReadCloserWrapper is not among the
    sources; its Close runs the closer exactly once, a later Close does
    nothing and returns nil. *)
Definition NewReadCloserWrapper (archive : Archive) (rwlayer : RWLayer)
  : M ReadCloser :=
  _ <- set_rcClosed false ;;
  ret (mkReadCloser archive rwlayer).

Definition rwTar_Close (rd : ReadCloser) : M (option error) :=
  closed <- get_rcClosed ;;
  if closed then ret None
  else
    _ <- set_rcClosed true ;;
    rwTar_closer (rc_archive rd) (rc_rwlayer rd).

(** exportContainerRw (image_commit.go) *)
Definition exportContainerRw (id mountLabel : string) : M (result ReadCloser) :=
  r <- layerStore_GetRWLayer id ;;
  match r with
  | Err err => ret (Err err)
  | Ok rwlayer =>
      (* defer: release the layer when an error is returned *)
      res <-
        (m <- rwlayer_Mount rwlayer mountLabel ;;
         match m with
         | Err err => ret (Err err)
         | Ok _ =>
             t <- rwlayer_TarStream rwlayer ;;
             match t with
             | Err err =>
                 _ <- rwlayer_Unmount rwlayer ;;
                 ret (Err err)
             | Ok archive =>
                 rd <- NewReadCloserWrapper archive rwlayer ;;
                 ret (Ok rd)
             end
         end) ;;
      match res with
      | Err retErr =>
          _ <- layerStore_ReleaseRWLayer rwlayer ;;
          ret (Err retErr)
      | Ok rd => ret (Ok rd)
      end
  end.

(** CommitImage (image_commit.go) *)
Definition CommitImage (ctx : Context) (c : CommitConfig) : M (result ImageID) :=
  match ctx 0%nat with
  | Some err => ret (Err err)
  | None =>
      r <- exportContainerRw (ContainerID c) (ContainerMountLabel c) ;;
      match r with
      | Err err => ret (Err err)
      | Ok rwTar =>
          defer (_ <- rwTar_Close rwTar ;; ret tt)
            (p <-
               (if decide (ParentImageID c = EmptyString)
                then ret (Ok (mkImage NewRootFS EmptyString))
                else imageStore_Get (ParentImageID c)) ;;
             match p with
             | Err err => ret (Err err)
             | Ok parent =>
                 lr <- layerStore_Register rwTar
                              (RootFS_ChainID (img_RootFS parent)) ;;
                 match lr with
                 | Err err => ret (Err err)
                 | Ok l =>
                     defer (layer_ReleaseAndLog l)
                       (let cc := mkChildConfig (ContainerID c) (Author c)
                                    (Comment c) (ContainerConfig c) (Config c)
                                    (layer_DiffID l) in
                        match json_Marshal (NewChildImage parent cc (ContainerOS c)) with
                        | Err err => ret (Err err)
                        | Ok config =>
                            cr <- imageStore_Create config ;;
                            match cr with
                            | Err err => ret (Err err)
                            | Ok id =>
                                _ <- LogImageEvent id id ActionCreate ;;
                                b <- imageStore_SetBuiltLocally id ;;
                                match b with
                                | Some err => ret (Err err)
                                | None =>
                                    if decide (ParentImageID c = EmptyString)
                                    then ret (Ok id)
                                    else
                                      sp <- imageStore_SetParent id (ParentImageID c) ;;
                                      match sp with
                                      | Some err => ret (Err err)
                                      | None => ret (Ok id)
                                      end
                                end
                            end
                        end)
                 end
             end)
      end
  end.


(** container.RWLayer is an interface: the value a container carries is a
    layer.RWLayer or a value of some other type (named by %T). *)
Inductive ContainerRWLayer : Type :=
| LayerRWLayer (l : RWLayer)
| ForeignRWLayer (typeName : string).

(** The %q verb on a driver name (a plain identifier: nothing to escape). *)
Definition quote (name : string) : string :=
  String (Ascii.ascii_of_nat 34) (String.append name (String (Ascii.ascii_of_nat 34) EmptyString)).

Definition log_Infof (chainID : ChainID) : M unit :=
  fun s => (tt, mkState (world s) (calls s ++ [CLogInfo chainID]) (events s)
                        (rcClosed s)).

Fixpoint logCleanedUp (metaData : list Metadata) : M unit :=
  match metaData with
  | [] => ret tt
  | m :: rest => _ <- log_Infof (md_ChainID m) ;; logCleanedUp rest
  end.

Definition layerStore_DriverName : M string :=
  fun s => (DriverName (world s), s).

(** ReleaseLayer (service.go) *)
Definition ReleaseLayer (rwlayer : ContainerRWLayer) : M (option error) :=
  match rwlayer with
  | ForeignRWLayer ty =>
      ret (Some (ErrorString (String.append "unexpected RWLayer type: " ty)))
  | LayerRWLayer l =>
      r <- layerStore_ReleaseRWLayer l ;;
      _ <- logCleanedUp (fst r) ;;
      match snd r with
      | Some err =>
          if negb (errors_Is err ErrMountDoesNotExist)
             && negb (errors_Is err ErrNotExist)
          then
            name <- layerStore_DriverName ;;
            ret (Some (Wrapped (String.append "driver "
                                  (String.append (quote name)
                                     " failed to remove root filesystem"))
                               err))
          else ret None
      | None => ret None
      end
  end.

(** CreateLayerFromImage (service.go); a nil image is [None], and the zero
    value of a chain ID is the empty string. *)
Definition CreateLayerFromImage (img : option Image) (layerName : string)
    (rwLayerOpts : CreateRWLayerOpts) : M (result RWLayer) :=
  let layerID :=
    match img with
    | Some img => RootFS_ChainID (img_RootFS img)
    | None => EmptyString
    end in
  layerStore_CreateRWLayer layerName layerID rwLayerOpts.

(** CreateLayer (service.go) *)
Definition CreateLayer (container : Container) (initFunc : string)
    : M (result RWLayer) :=
  r <- (if decide (ctr_ImageID container = EmptyString)
        then ret (Ok None)
        else
          g <- imageStore_Get (ctr_ImageID container) ;;
          match g with
          | Err err => ret (Err err)
          | Ok containerImg => ret (Ok (Some containerImg))
          end) ;;
  match r with
  | Err err => ret (Err err)
  | Ok img =>
      let rwLayerOpts :=
        mkCreateRWLayerOpts (ctr_MountLabel container) initFunc
                            (ctr_StorageOpt container) in
      CreateLayerFromImage img (ctr_ID container) rwLayerOpts
  end.

End ImageServiceModel.

Arguments State W : clear implicits.
Arguments mkState {W} _ _ _ _.

(** ** Disk usage (service.go) *)

(** What ImageDiskUsage reads: the snapshots Map() of the image store and of
    the layer store, the children index of the image store and the
    references of the reference store. *)
Record Stores : Type := mkStores {
  imageStore_Map : gmap ImageID Image;
  imageStore_Children : ImageID -> list ImageID;
  referenceStore_References : ImageID -> list string;
  layerStore_Map : gmap ChainID Layer
}.

Section DiskUsageModel.
Context `{!ImageCodec}.

(** [layerRefs[chid]++] on a Go int (a missing key reads as 0). *)
Definition bump (layerRefs : gmap ChainID Z) (chid : ChainID) : gmap ChainID Z :=
  <[chid := add64 (default 0 (layerRefs !! chid)) 1]> layerRefs.

(** The inner loop of getLayerRefs: append the diff IDs one by one and count
    the chain ID of every prefix. *)
Fixpoint countChain (rootFS : RootFS) (ids : list DiffID)
    (layerRefs : gmap ChainID Z) : gmap ChainID Z :=
  match ids with
  | [] => layerRefs
  | id :: rest =>
      let rootFS' := RootFS_Append rootFS id in
      let chid := RootFS_ChainID rootFS' in
      countChain rootFS' rest (bump layerRefs chid)
  end.

(** The test that makes getLayerRefs skip an image. *)
Definition skipped (st : Stores) (id : ImageID) : bool :=
  (length (referenceStore_References st id) =? 0)%nat
  && negb (length (imageStore_Children st id) =? 0)%nat.

(** One iteration of the outer loop of getLayerRefs. *)
Definition getLayerRefs_step (st : Stores) (layerRefs : gmap ChainID Z)
    (entry : ImageID * Image) : gmap ChainID Z :=
  let '(id, img) := entry in
  if skipped st id then layerRefs
  else countChain (mkRootFS (rootfs_Type (img_RootFS img)) [])
                  (DiffIDs (img_RootFS img)) layerRefs.

(** getLayerRefs, for a given iteration order of the image map (Go leaves
    the order of a range over a map unspecified). *)
Definition getLayerRefs_in (st : Stores) (order : list (ImageID * Image))
  : gmap ChainID Z :=
  fold_left (getLayerRefs_step st) order ∅.

Definition getLayerRefs (st : Stores) : gmap ChainID Z :=
  getLayerRefs_in st (map_to_list (imageStore_Map st)).

(** One observation of the context; the state counts the observations. *)
Definition poll (ctx : Context) : StateM nat (option error) :=
  fun n => (ctx n, S n).

(** The loop of ImageDiskUsage over the layers still to visit. *)
Fixpoint diskUsageLoop (ctx : Context) (layerRefs : gmap ChainID Z)
    (todo : list Layer) (allLayersSize : Z) : StateM nat (Z * option error) :=
  match todo with
  | [] => ret (allLayersSize, None)
  | l :: rest =>
      done <- poll ctx ;;
      match done with
      | Some err => ret (allLayersSize, Some err)
      | None =>
          let size := layer_DiffSize l in
          diskUsageLoop ctx layerRefs rest
            (match layerRefs !! layer_ChainID l with
             | Some _ => add64 allLayersSize size
             | None => allLayersSize
             end)
      end
  end.

(** ImageDiskUsage, for given iteration orders of the two maps. *)
Definition ImageDiskUsage_in (ctx : Context) (st : Stores)
    (imageOrder : list (ImageID * Image)) (layerOrder : list (ChainID * Layer))
  : StateM nat (Z * option error) :=
  diskUsageLoop ctx (getLayerRefs_in st imageOrder) layerOrder.*2 0.

Definition ImageDiskUsage (ctx : Context) (st : Stores)
  : StateM nat (Z * option error) :=
  ImageDiskUsage_in ctx st (map_to_list (imageStore_Map st))
                    (map_to_list (layerStore_Map st)).

(** The chain IDs countChain visits from [rootFS] on: one per non-empty
    prefix of [ids], appended to the diff IDs [rootFS] already has. *)
Definition chainIDsFrom (rootFS : RootFS) (ids : list DiffID) : list ChainID :=
  (fun n => RootFS_ChainID (mkRootFS (rootfs_Type rootFS)
                                     (DiffIDs rootFS ++ take n ids)))
  <$> seq 1 (length ids).

(** The chain IDs along the root filesystem of one image: one per non-empty
    prefix of its diff IDs. *)
Definition chainIDsOf (img : Image) : list ChainID :=
  chainIDsFrom (mkRootFS (rootfs_Type (img_RootFS img)) [])
               (DiffIDs (img_RootFS img)).

(** The chain IDs an image contributes: none when it is skipped. *)
Definition keptChainsOf (st : Stores) (e : ImageID * Image) : list ChainID :=
  if skipped st e.1 then [] else chainIDsOf e.2.

(** The specification's reading of the reference map: the chain IDs of the
    images that are not skipped, and for each how many times it occurs. *)
Definition referencedChains (st : Stores) : gset ChainID :=
  list_to_set (map_to_list (imageStore_Map st) ≫= keptChainsOf st).

Definition referenceCount (st : Stores) (chid : ChainID) : nat :=
  length (filter (fun c => c = chid)
                 (map_to_list (imageStore_Map st) ≫= keptChainsOf st)).

(** The sizes of those of the layers [ls] whose chain ID is referenced, each
    layer once. *)
Definition countedSize (st : Stores) (ls : list Layer) : Z :=
  foldr Z.add 0
    (layer_DiffSize <$> filter (fun l => layer_ChainID l ∈ referencedChains st) ls).

(** The specification's reading of the total: over the snapshot of the layer
    store. *)
Definition referencedSize (st : Stores) : Z :=
  countedSize st (map_to_list (layerStore_Map st)).*2.

End DiskUsageModel.

(** ** Transfer limits (service.go) *)

(** The download and upload managers of package xfer, as an interface: the
    method UpdateConfig calls, and the bound on concurrent transfers a
    manager currently enforces. *)
Class TransferManager (T : Type) : Type := {
  SetConcurrency : Z -> T -> T;
  concurrencyLimit : T -> Z
}.

Inductive XferCall : Type :=
| DownloadSetConcurrency (n : Z)
| UploadSetConcurrency (n : Z).

Section TransferModel.
Context {DM UM : Type} `{!TransferManager DM, !TransferManager UM}.

(** The two fields of ImageService that UpdateConfig touches (a nil pointer
    is [None]), and the calls made on the managers. *)
Record Transfers : Type := mkTransfers {
  downloadManager : option DM;
  uploadManager : option UM;
  xferCalls : list XferCall
}.

(** UpdateConfig (service.go) *)
Definition UpdateConfig (maxDownloads maxUploads : Z) : StateM Transfers unit :=
  _ <- (fun i : Transfers =>
          match downloadManager i with
          | Some dm =>
              if negb (maxDownloads =? 0)
              then (tt, mkTransfers (Some (SetConcurrency maxDownloads dm))
                                    (uploadManager i)
                                    (xferCalls i ++ [DownloadSetConcurrency maxDownloads]))
              else (tt, i)
          | None => (tt, i)
          end) ;;
  (fun i : Transfers =>
     match uploadManager i with
     | Some um =>
         if negb (maxUploads =? 0)
         then (tt, mkTransfers (downloadManager i)
                               (Some (SetConcurrency maxUploads um))
                               (xferCalls i ++ [UploadSetConcurrency maxUploads]))
         else (tt, i)
     | None => (tt, i)
     end).

End TransferModel.

Arguments Transfers DM UM : clear implicits.

(** ** Resolving a chain of diff IDs to a cache ref (worker.go) *)

(** cache.ImmutableRef *)
Record ImmutableRef : Type := mkRef { ref_ID : string }.

#[global] Instance ImmutableRef_eq_dec : EqDecision ImmutableRef.
Proof. solve_decision. Defined.

(** The cache manager of the worker, over a world [W]: GetByBlob with the
    uncompressed digest of the descriptor and the parent ref (nil is
    [None]), and the release of a ref. *)
Class CacheManager (W : Type) : Type := {
  GetByBlob : DiffID -> option ImmutableRef -> list string -> W
              -> result ImmutableRef * W;
  RefRelease : ImmutableRef -> W -> option error * W
}.

Inductive CacheCall : Type :=
| CGetByBlob (uncompressed : DiffID) (parent : option ImmutableRef)
             (res : option ImmutableRef)
| CRefRelease (ref : ImmutableRef).

(** What a Go call comes to: it returns, or it panics at run time. *)
Inductive outcome (A : Type) : Type :=
| Return (r : result A)
| Panic (msg : string).
Arguments Return {A} r.
Arguments Panic {A} msg.

(** s[i] for an int index: out of range is a run-time panic ([None]). *)
Definition index {A} (s : list A) (i : Z) : option A :=
  if i <? 0 then None else s !! Z.to_nat i.

(** s[:n] for an int bound within range. *)
Definition slice_to {A} (s : list A) (n : Z) : list A := take (Z.to_nat n) s.

Definition len {A} (s : list A) : Z := Z.of_nat (length s).

Section WorkerModel.
Context {W : Type} `{!CacheManager W}.

Record WorkerState : Type := mkWorkerState {
  cacheWorld : W;
  cacheCalls : list CacheCall
}.

Definition cache_GetByBlob (d : DiffID) (parent : option ImmutableRef)
    (opts : list string) : StateM WorkerState (result ImmutableRef) :=
  fun s =>
    let '(r, w') := GetByBlob d parent opts (cacheWorld s) in
    (r, mkWorkerState w'
          (cacheCalls s ++ [CGetByBlob d parent
                              (match r with Ok x => Some x | Err _ => None end)])).

Definition ref_Release (r : ImmutableRef) : StateM WorkerState unit :=
  fun s =>
    let '(_, w') := RefRelease r (cacheWorld s) in
    (tt, mkWorkerState w' (cacheCalls s ++ [CRefRelease r])).

(** The last statement of getRef: GetByBlob on the last diff ID. *)
Definition getByBlobLast (diffIDs : list DiffID) (parent : option ImmutableRef)
    (opts : list string) : StateM WorkerState (outcome ImmutableRef) :=
  match index diffIDs (len diffIDs - 1) with
  | None => ret (Panic "index out of range")
  | Some d => r <- cache_GetByBlob d parent opts ;; ret (Return r)
  end.

(** getRef (worker.go); the recursion is on diffIDs[:len(diffIDs)-1]. *)
Equations? getRef (diffIDs : list DiffID) (opts : list string)
  : StateM WorkerState (outcome ImmutableRef) by wf (length diffIDs) lt :=
  getRef diffIDs opts with Z_lt_dec 1 (len diffIDs) => {
    | left _ :=
        p <- getRef (slice_to diffIDs (len diffIDs - 1)) opts ;;
        match p with
        | Panic msg => ret (Panic msg)
        | Return (Err err) => ret (Return (Err err))
        | Return (Ok parent) =>
            r <- getByBlobLast diffIDs (Some parent) opts ;;
            _ <- ref_Release parent ;;
            ret r
        end
    | right _ := getByBlobLast diffIDs None opts }.
Proof.
  unfold slice_to, len in *. rewrite length_take. lia.
Qed.

End WorkerModel.

Arguments WorkerState W : clear implicits.
Arguments mkWorkerState {W} _ _.

(** ** Commit of a build step (image_commit.go) *)

(** container.Container, reduced to what CommitBuildStep reads. *)
Record BuildContainer : Type := mkBuildContainer {
  bc_MountLabel : string;
  bc_ImagePlatform_OS : string;
  bc_ImageID : ImageID
}.

Section BuildStepModel.
Context {W : Type} `{!LayerStore W, !ImageStore W, !ImageCodec}.

(** The Get of the container store, an in-memory index (nil is [None]). *)
Variable containers_Get : string -> option BuildContainer.

(** CommitBuildStep (image_commit.go) *)
Definition CommitBuildStep (ctx : Context) (c : CommitConfig)
  : StateM (State W) (result ImageID) :=
  match containers_Get (ContainerID c) with
  | None =>
      ret (Err (ErrorString (String.append "container not found: " (ContainerID c))))
  | Some ctr =>
      let c := mkCommitConfig (Author c) (Comment c) (Config c) (ContainerConfig c)
                 (ContainerID c) (bc_MountLabel ctr) (bc_ImagePlatform_OS ctr)
                 (bc_ImageID ctr) in
      CommitImage ctx c
  end.

End BuildStepModel.

(** ** Platforms of the worker (worker.go) *)

(** ocispec.Platform *)
Record Platform : Type := mkPlatform {
  plat_Architecture : string;
  plat_OS : string;
  plat_OSVersion : string;
  plat_OSFeatures : list string;
  plat_Variant : string
}.

#[global] Instance Platform_eq_dec : EqDecision Platform.
Proof. solve_decision. Defined.

(** What the worker takes from packages platforms and archutil:
    platforms.Only(p).Match(q), platforms.DefaultSpec() and
    archutil.SupportedPlatforms(noCache). *)
Class PlatformEnv : Type := {
  Only_Match : Platform -> Platform -> bool;
  DefaultSpec : Platform;
  SupportedPlatforms : bool -> list Platform
}.

Section PlatformModel.
Context `{!PlatformEnv}.

(** mergePlatforms (worker.go): the first loop copies [defined] and builds
    one matcher per platform (a matcher is kept as the platform it was made
    from), the second appends the supported platforms no matcher matches. *)
Definition mergePlatforms (defined supported : list Platform) : list Platform :=
  let '(result, matchers) :=
    fold_left (fun (acc : list Platform * list Platform) p =>
                 (acc.1 ++ [p], acc.2 ++ [p]))
              defined ([], []) in
  fold_left (fun result p =>
               let exists_ := existsb (fun m => Only_Match m p) matchers in
               if negb exists_ then result ++ [p] else result)
            supported result.

(** Platforms (worker.go); the state is the field Opt.Platforms. *)
Definition Platforms (noCache : bool) : StateM (list Platform) (list Platform) :=
  fun optPlatforms =>
    let optPlatforms :=
      if noCache then mergePlatforms optPlatforms (SupportedPlatforms noCache)
      else optPlatforms in
    if len optPlatforms =? 0 then ([DefaultSpec], optPlatforms)
    else (optPlatforms, optPlatforms).

End PlatformModel.

(** ** Remote snapshots (worker.go) *)

(** ocispec.Descriptor; a nil map of annotations reads like an empty one. *)
Record Descriptor : Type := mkDescriptor {
  desc_MediaType : string;
  desc_Digest : string;
  desc_Size : Z;
  desc_Annotations : gmap string string
}.

#[global] Instance Descriptor_eq_dec : EqDecision Descriptor.
Proof. solve_decision. Defined.

(** The zero value of a descriptor. *)
Definition zeroDescriptor : Descriptor := mkDescriptor EmptyString EmptyString 0 ∅.

(** rootfs.Layer *)
Record RootfsLayer : Type := mkRootfsLayer {
  rl_Diff : Descriptor;
  rl_Blob : Descriptor
}.

Definition zeroRootfsLayer : RootfsLayer := mkRootfsLayer zeroDescriptor zeroDescriptor.

(** The content provider of a remote: emptyProvider or another one. *)
Inductive ContentProvider : Type :=
| emptyProvider
| otherProvider (name : string).

(** solver.Remote *)
Record Remote : Type := mkRemote {
  Descriptors : list Descriptor;
  Provider : ContentProvider
}.

(** c8dimages.MediaTypeDockerSchema2Layer and ocispec.MediaTypeImageLayer *)
Definition MediaTypeDockerSchema2Layer : string :=
  "application/vnd.docker.image.rootfs.diff.tar".
Definition MediaTypeImageLayer : string :=
  "application/vnd.oci.image.layer.v1.tar".

Definition labelCreatedAt : string := "buildkit/createdat".

(** m[key] on a map of strings: a missing key reads as the empty string. *)
Definition annotation (m : gmap string string) (key : string) : string :=
  default EmptyString (m !! key).

(** digest.Parse of package go-digest. *)
Class DigestLib : Type := {
  digest_Parse : string -> result string
}.

Section LayersModel.
Context `{!DigestLib}.

(** The loop of getLayers from position [i] on; [layers] is the slice made
    with len(descs) zero values. *)
Fixpoint getLayers_loop (i : nat) (descs : list Descriptor)
    (layers : list RootfsLayer) : result (list RootfsLayer) :=
  match descs with
  | [] => Ok layers
  | desc :: rest =>
      let diffIDStr := annotation (desc_Annotations desc) "containerd.io/uncompressed" in
      if decide (diffIDStr = EmptyString)
      then Err (ErrorString (String.append (desc_Digest desc)
                                           " missing uncompressed digest"))
      else
        match digest_Parse diffIDStr with
        | Err err => Err err
        | Ok diffID =>
            getLayers_loop (S i) rest
              (<[i := mkRootfsLayer
                        (mkDescriptor MediaTypeImageLayer diffID 0 ∅)
                        (mkDescriptor (desc_MediaType desc) (desc_Digest desc)
                                      (desc_Size desc) ∅)]> layers)
        end
  end.

(** getLayers (worker.go) *)
Definition getLayers (descs : list Descriptor) : result (list RootfsLayer) :=
  getLayers_loop 0 descs (replicate (length descs) zeroRootfsLayer).

End LayersModel.

(** LayerAccess and the methods of a ref that GetRemotes calls, over a
    world [W]. *)
Class LayerAccess (W : Type) : Type := {
  GetDiffIDs : string -> W -> result (list DiffID) * W;
  EnsureLayer : string -> W -> result (list DiffID) * W;
  ref_Finalize : ImmutableRef -> W -> option error * W;
  ref_Extract : ImmutableRef -> W -> option error * W
}.

Inductive AccessCall : Type :=
| AGetDiffIDs (key : string) (ok : bool)
| AEnsureLayer (key : string) (ok : bool)
| AFinalize (ref : ImmutableRef) (ok : bool)
| AExtract (ref : ImmutableRef) (ok : bool).

Section RemotesModel.
Context {W : Type} `{!LayerAccess W}.

Record AccessState : Type := mkAccessState {
  accessWorld : W;
  accessCalls : list AccessCall
}.

Definition access {A} (op : W -> A * W) (entry : A -> AccessCall)
  : StateM AccessState A :=
  fun s =>
    let '(a, w') := op (accessWorld s) in
    (a, mkAccessState w' (accessCalls s ++ [entry a])).

(** The second half of GetRemotes: one descriptor per diff ID, written into
    a slice made with len(diffIDs) zero values. *)
Fixpoint fillDescriptors (i : nat) (diffIDs : list DiffID)
    (descriptors : list Descriptor) : list Descriptor :=
  match diffIDs with
  | [] => descriptors
  | dgst :: rest =>
      fillDescriptors (S i) rest
        (<[i := mkDescriptor MediaTypeDockerSchema2Layer dgst (-1) ∅]> descriptors)
  end.

(** GetRemotes (worker.go); a nil ref is [None], the nil slice is []. *)
Definition GetRemotes (ref : option ImmutableRef) (createIfNeeded all : bool)
  : StateM AccessState (result (list Remote)) :=
  match ref with
  | None => ret (Ok [])
  | Some ref =>
      r <- (if negb createIfNeeded
            then access (GetDiffIDs (ref_ID ref))
                        (fun r => AGetDiffIDs (ref_ID ref) (is_ok r))
            else
              f <- access (ref_Finalize ref) (fun e => AFinalize ref (is_nil e)) ;;
              match f with
              | Some err => ret (Err err)
              | None =>
                  x <- access (ref_Extract ref) (fun e => AExtract ref (is_nil e)) ;;
                  match x with
                  | Some err => ret (Err err)
                  | None =>
                      access (EnsureLayer (ref_ID ref))
                             (fun r => AEnsureLayer (ref_ID ref) (is_ok r))
                  end
              end) ;;
      match r with
      | Err err => ret (Err err)
      | Ok diffIDs =>
          let descriptors :=
            fillDescriptors 0 diffIDs (replicate (length diffIDs) zeroDescriptor) in
          ret (Ok [mkRemote descriptors emptyProvider])
      end
  end.

End RemotesModel.

Arguments AccessState W : clear implicits.
Arguments mkAccessState {W} _ _.

(** xfer.DownloadDescriptor as FromRemote builds it (layerDescriptor). *)
Record LayerDescriptor : Type := mkLayerDescriptor {
  ld_desc : Descriptor;
  ld_diffID : DiffID;
  ld_provider : ContentProvider
}.

(** What FromRemote uses besides the cache manager, over a world [W]: the
    download manager (Download and the release function it returns), the
    Delete of the content store, and the clock with the parsing of a time
    (time.Now, Time.UnmarshalText). *)
Class RemoteEnv (W : Type) : Type := {
  Download : list LayerDescriptor -> W -> result RootFS * W;
  DownloadRelease : W -> W;
  ContentStore_Delete : string -> W -> option error * W;
  time_Now : W -> string;
  time_UnmarshalText : string -> result string
}.

Inductive RemoteCall : Type :=
| RDownload (layers : list LayerDescriptor) (ok : bool)
| RDownloadRelease
| RContentDelete (dgst : string).

(** cache.WithDescription and cache.WithCreationTime, as the option names
    getRef passes on. *)
Definition WithDescription (descr : string) : string :=
  String.append "description=" descr.
Definition WithCreationTime (tm : string) : string :=
  String.append "created=" tm.

Section FromRemoteModel.
Context {W : Type} `{!CacheManager W, !RemoteEnv W, !DigestLib}.

(** The worker's cache state together with the calls on the download
    manager and the content store. *)
Record RemoteState : Type := mkRemoteState {
  rs_worker : WorkerState W;
  rs_log : list RemoteCall
}.

(** Run a cache operation of the worker. *)
Definition onWorker {A} (m : StateM (WorkerState W) A) : StateM RemoteState A :=
  fun s =>
    let '(a, ws) := m (rs_worker s) in
    (a, mkRemoteState ws (rs_log s)).

(** Run an operation of the download manager or the content store. *)
Definition onRemote {A} (op : W -> A * W) (entry : A -> RemoteCall)
  : StateM RemoteState A :=
  fun s =>
    let '(a, w') := op (cacheWorld (rs_worker s)) in
    (a, mkRemoteState (mkWorkerState w' (cacheCalls (rs_worker s)))
                      (rs_log s ++ [entry a])).

Definition clock : StateM RemoteState string :=
  fun s => (time_Now (cacheWorld (rs_worker s)), s).

(** The deferred releases of the refs of the loop, last deferred first. *)
Fixpoint releaseRefs (deferred : list ImmutableRef) : StateM RemoteState unit :=
  match deferred with
  | [] => ret tt
  | r :: rest => _ <- onWorker (ref_Release r) ;; releaseRefs rest
  end.

(** The deferred deletion of the blobs from the content store. *)
Fixpoint deleteBlobs (rootfs : list RootfsLayer) : StateM RemoteState unit :=
  match rootfs with
  | [] => ret tt
  | l :: rest =>
      _ <- onRemote (ContentStore_Delete (desc_Digest (rl_Blob l)))
                    (fun _ => RContentDelete (desc_Digest (rl_Blob l))) ;;
      deleteBlobs rest
  end.

(** The loop of FromRemote over the indices [todo] still to visit;
    [deferred] are the refs whose release has been deferred so far (the
    latest first).  The loop returns with them what FromRemote returns. *)
Fixpoint fromRemoteLoop (remote : Remote) (diffIDs : list DiffID) (todo : list Z)
    (deferred : list ImmutableRef)
  : StateM RemoteState (outcome ImmutableRef * list ImmutableRef) :=
  match todo with
  | [] => ret (Return (Err (ErrorString "unreachable")), deferred)
  | i :: rest =>
      now <- clock ;;
      match index (Descriptors remote) i with
      | None => ret (Panic "index out of range", deferred)
      | Some desc =>
          match (match desc_Annotations desc !! labelCreatedAt with
                 | Some tmstr => time_UnmarshalText tmstr
                 | None => Ok now
                 end) with
          | Err err => ret (Return (Err err), deferred)
          | Ok tm =>
              let descr :=
                match desc_Annotations desc !! "buildkit/description" with
                | Some v => v
                | None => String.append "imported " (desc_Digest desc)
                end in
              r <- onWorker (getRef (slice_to diffIDs (i + 1))
                               [WithDescription descr; WithCreationTime tm]) ;;
              match r with
              | Panic msg => ret (Panic msg, deferred)
              | Return (Err err) => ret (Return (Err err), deferred)
              | Return (Ok ref) =>
                  if i =? len (Descriptors remote) - 1
                  then ret (Return (Ok ref), deferred)
                  else fromRemoteLoop remote diffIDs rest (ref :: deferred)
              end
          end
      end
  end.

(** FromRemote (worker.go) *)
Definition FromRemote (remote : Remote) : StateM RemoteState (outcome ImmutableRef) :=
  match getLayers (Descriptors remote) with
  | Err err => ret (Return (Err err))
  | Ok rootfs =>
      let layers :=
        (fun l => mkLayerDescriptor (rl_Blob l) (desc_Digest (rl_Diff l))
                                    (Provider remote)) <$> rootfs in
      (* defer: delete the blobs *)
      r <- (d <- onRemote (Download layers) (fun d => RDownload layers (is_ok d)) ;;
            match d with
            | Err err => ret (Return (Err err))
            | Ok rootFS =>
                (* defer release() *)
                r <- (if negb (len (DiffIDs rootFS) =? len layers)
                      then ret (Return (Err (ErrorString
                                  (String.append "invalid layer count mismatch "
                                     (String.append (pretty (len (DiffIDs rootFS)))
                                        (String.append " vs " (pretty (len layers))))))))
                      else
                        lr <- fromRemoteLoop remote (DiffIDs rootFS)
                                (seqZ 0 (len (DiffIDs rootFS))) [] ;;
                        _ <- releaseRefs lr.2 ;;
                        ret lr.1) ;;
                _ <- onRemote (fun w => (tt, DownloadRelease w))
                              (fun _ => RDownloadRelease) ;;
                ret r
            end) ;;
      _ <- deleteBlobs rootfs ;;
      ret r
  end.

End FromRemoteModel.

Arguments RemoteState W : clear implicits.
Arguments mkRemoteState {W} _ _.

(** ** Observations on a trace of calls *)

(** The calls on a read-write layer and its archive. *)
Definition isRWLayerCall (c : Call) : bool :=
  match c with
  | CCreateRWLayer _ _ _ _ | CGetRWLayer _ _ | CMount _ _ _ | CTarStream _ _
  | CUnmount _ _ | CReleaseRWLayer _ _ | CArchiveClose _ => true
  | _ => false
  end.

(** The image IDs of the records created (successful imageStore.Create). *)
Definition createdIDs (tr : list Call) : list ImageID :=
  omap (fun c => match c with CCreate _ (Some id) => Some id | _ => None end) tr.

(** The event CommitImage logs for a created image. *)
Definition createEvent (id : ImageID) : Event := mkEvent ActionCreate id id.

(** Mounts taken and not given back: successful Mount calls minus Unmount
    calls. *)
Fixpoint mountBalance (tr : list Call) : Z :=
  match tr with
  | [] => 0
  | CMount _ _ true :: rest => mountBalance rest + 1
  | CUnmount _ _ :: rest => mountBalance rest - 1
  | _ :: rest => mountBalance rest
  end.

(** Read-write layer references taken and not given back: successful
    GetRWLayer calls minus ReleaseRWLayer calls. *)
Fixpoint rwRefBalance (tr : list Call) : Z :=
  match tr with
  | [] => 0
  | CGetRWLayer _ true :: rest => rwRefBalance rest + 1
  | CReleaseRWLayer _ _ :: rest => rwRefBalance rest - 1
  | _ :: rest => rwRefBalance rest
  end.

(** The layers a trace registered (successful Register). *)
Definition registeredLayers (tr : list Call) : list Layer :=
  omap (fun c => match c with CRegister _ (Some l) => Some l | _ => None end) tr.




(** The diff IDs a trace of the worker asked GetByBlob for, in order. *)
Definition blobsAsked (tr : list CacheCall) : list DiffID :=
  omap (fun c => match c with CGetByBlob d _ _ => Some d | _ => None end) tr.

(** The labels a trace mounted a read-write layer with. *)
Definition mountLabels (tr : list Call) : list string :=
  omap (fun c => match c with CMount _ label _ => Some label | _ => None end) tr.

(** The images a trace asked the image store for. *)
Definition imageGets (tr : list Call) : list ImageID :=
  omap (fun c => match c with CImageGet id _ => Some id | _ => None end) tr.

(** The parent links a trace asked the image store to set: (child, parent). *)
Definition parentLinks (tr : list Call) : list (ImageID * ImageID) :=
  omap (fun c => match c with CSetParent id parent _ => Some (id, parent) | _ => None end) tr.

(** The images a trace asked to mark as built locally. *)
Definition builtLocally (tr : list Call) : list ImageID :=
  omap (fun c => match c with CSetBuiltLocally id _ => Some id | _ => None end) tr.

(** The chain IDs a trace asked Register to put a layer on. *)
Definition registerParents (tr : list Call) : list ChainID :=
  omap (fun c => match c with CRegister parent _ => Some parent | _ => None end) tr.

(** The refs a trace of the worker obtained from GetByBlob, in order. *)
Definition refsObtained (tr : list CacheCall) : list ImmutableRef :=
  omap (fun c => match c with CGetByBlob _ _ res => res | _ => None end) tr.

(** The refs a trace of the worker released, in order. *)
Definition refsReleased (tr : list CacheCall) : list ImmutableRef :=
  omap (fun c => match c with CRefRelease r => Some r | _ => None end) tr.

(** The parents a trace of the worker passed to GetByBlob, in order. *)
Definition parentsPassed (tr : list CacheCall) : list (option ImmutableRef) :=
  omap (fun c => match c with CGetByBlob _ parent _ => Some parent | _ => None end) tr.

(** What getLayers makes of one descriptor. *)
Definition layerOf `{!DigestLib} (desc : Descriptor) : result RootfsLayer :=
  let diffIDStr := annotation (desc_Annotations desc) "containerd.io/uncompressed" in
  if decide (diffIDStr = EmptyString)
  then Err (ErrorString (String.append (desc_Digest desc) " missing uncompressed digest"))
  else match digest_Parse diffIDStr with
       | Err err => Err err
       | Ok diffID =>
           Ok (mkRootfsLayer (mkDescriptor MediaTypeImageLayer diffID 0 ∅)
                             (mkDescriptor (desc_MediaType desc) (desc_Digest desc)
                                           (desc_Size desc) ∅))
       end.

(** The descriptor GetRemotes makes of one diff ID. *)
Definition remoteDescriptor (dgst : DiffID) : Descriptor :=
  mkDescriptor MediaTypeDockerSchema2Layer dgst (-1) ∅.

(** What getLayers makes of a list of descriptors: the layer of each one,
    up to the first that has none. *)
Fixpoint layersOf `{!DigestLib} (descs : list Descriptor) : result (list RootfsLayer) :=
  match descs with
  | [] => Ok []
  | desc :: rest =>
      match layerOf desc with
      | Err err => Err err
      | Ok l =>
          match layersOf rest with
          | Err err => Err err
          | Ok ls => Ok (l :: ls)
          end
      end
  end.

(** The supported platforms no platform of [defined] matches. *)
Definition unmatched `{!PlatformEnv} (defined supported : list Platform)
  : list Platform :=
  filter (fun p => existsb (fun m => Only_Match m p) defined = false) supported.

(** ** A small in-memory world, to run the model on *)

(** Counters of what is held, the image records created, and switches that
    make single operations fail. *)
Record Sim : Type := mkSim {
  sim_mounts : Z;
  sim_rwRefs : Z;
  sim_layerRefs : Z;
  sim_images : list string;
  sim_failMount : bool;
  sim_failBuiltLocally : bool;
  sim_releaseErr : option error
}.

Definition sim_init : Sim := mkSim 0 0 0 [] false false None.

Definition sim_layer : Layer := mkLayer "chain-1" "diff-1" 10.

#[global] Instance sim_LayerStore : LayerStore Sim := {|
  CreateRWLayer name parent opts w :=
    (Ok (mkRWLayer name),
     mkSim (sim_mounts w) (sim_rwRefs w + 1) (sim_layerRefs w) (sim_images w)
           (sim_failMount w) (sim_failBuiltLocally w) (sim_releaseErr w));
  GetRWLayer id w :=
    (Ok (mkRWLayer id),
     mkSim (sim_mounts w) (sim_rwRefs w + 1) (sim_layerRefs w) (sim_images w)
           (sim_failMount w) (sim_failBuiltLocally w) (sim_releaseErr w));
  ReleaseRWLayer rw w :=
    (([], sim_releaseErr w),
     mkSim (sim_mounts w) (sim_rwRefs w - 1) (sim_layerRefs w) (sim_images w)
           (sim_failMount w) (sim_failBuiltLocally w) (sim_releaseErr w));
  Mount rw label w :=
    if sim_failMount w then (Err (ErrorString "mount failed"), w)
    else (Ok "/mnt",
          mkSim (sim_mounts w + 1) (sim_rwRefs w) (sim_layerRefs w) (sim_images w)
                (sim_failMount w) (sim_failBuiltLocally w) (sim_releaseErr w));
  Unmount rw w :=
    (None,
     mkSim (sim_mounts w - 1) (sim_rwRefs w) (sim_layerRefs w) (sim_images w)
           (sim_failMount w) (sim_failBuiltLocally w) (sim_releaseErr w));
  TarStream rw w := (Ok (mkArchive rw), w);
  ArchiveClose a w := (None, w);
  Register rd parent w :=
    (Ok sim_layer,
     mkSim (sim_mounts w) (sim_rwRefs w) (sim_layerRefs w + 1) (sim_images w)
           (sim_failMount w) (sim_failBuiltLocally w) (sim_releaseErr w));
  Release l w :=
    (([], None),
     mkSim (sim_mounts w) (sim_rwRefs w) (sim_layerRefs w - 1) (sim_images w)
           (sim_failMount w) (sim_failBuiltLocally w) (sim_releaseErr w));
  DriverName w := "overlay2"
|}.

#[global] Instance sim_ImageStore : ImageStore Sim := {|
  Get id w := (Err (ErrorString "no such image"), w);
  Create config w :=
    (Ok (String.append "sha256:" config),
     mkSim (sim_mounts w) (sim_rwRefs w) (sim_layerRefs w)
           (sim_images w ++ [String.append "sha256:" config])
           (sim_failMount w) (sim_failBuiltLocally w) (sim_releaseErr w));
  SetBuiltLocally id w :=
    if sim_failBuiltLocally w
    then (Some (ErrorString "failed to write built-locally flag"), w)
    else (None, w);
  SetParent id parent w := (None, w)
|}.

#[global] Instance sim_ImageCodec : ImageCodec := {|
  RootFS_ChainID r := String.concat "+" (DiffIDs r);
  NewChildImage parent cc os :=
    mkImage (RootFS_Append (img_RootFS parent) (cc_DiffID cc)) (cc_Config cc);
  json_Marshal img := Ok (img_Config img)
|}.

Definition sim_commit : CommitConfig :=
  mkCommitConfig "author" "comment" "cfg" "ccfg" "ctr-1" "label" "linux" EmptyString.

Definition sim_state (w : Sim) : State Sim := mkState w [] [] false.

(** Four images and four layers: [img-base] and [img-mid] are untagged and
    have children (skipped), [img-app] is tagged, [img-dangling] is untagged
    and childless. *)
Definition sim_stores : Stores :=
  mkStores
    (list_to_map
       [("img-base", mkImage (mkRootFS "layers" ["d1"]) "base");
        ("img-app", mkImage (mkRootFS "layers" ["d1"; "d2"]) "app");
        ("img-dangling", mkImage (mkRootFS "layers" ["d3"]) "dangling");
        ("img-mid", mkImage (mkRootFS "layers" ["d4"]) "mid")])
    (fun id => if decide (id = "img-base") then ["img-app"]
               else if decide (id = "img-mid") then ["img-gone"] else [])
    (fun id => if decide (id = "img-app") then ["app:latest"] else [])
    (list_to_map
       [("d1", mkLayer "d1" "d1" 100);
        ("d1+d2", mkLayer "d1+d2" "d2" 20);
        ("d3", mkLayer "d3" "d3" 5);
        ("d4", mkLayer "d4" "d4" 7)]).

(** A context seen live twice and cancelled from the third observation on. *)
Definition sim_ctx : Context :=
  fun n => if (n <? 2)%nat then None else Some ErrCanceled.

(** One tagged image of three layers of 2^62 bytes each: every size fits in
    an int64, their sum does not. *)
Definition sim_huge_stores : Stores :=
  mkStores
    (list_to_map [("img-huge", mkImage (mkRootFS "layers" ["d1"; "d2"; "d3"]) "huge")])
    (fun _ => [])
    (fun _ => ["huge:latest"])
    (list_to_map
       [("d1", mkLayer "d1" "d1" (2 ^ 62));
        ("d1+d2", mkLayer "d1+d2" "d2" (2 ^ 62));
        ("d1+d2+d3", mkLayer "d1+d2+d3" "d3" (2 ^ 62))]).

(** A context seen live once and cancelled from the second observation on. *)
Definition sim_ctx_early : Context :=
  fun n => if (n <? 1)%nat then None else Some ErrCanceled.

(** A cache manager that always finds the blob: the ref it returns is named
    after its parent and the diff ID; the world counts the refs held. *)
#[global] Instance sim_CacheManager : CacheManager Z := {|
  GetByBlob d parent opts w :=
    (Ok (mkRef (String.append
                  (match parent with Some p => ref_ID p | None => EmptyString end)
                  (String.append "/" d))),
     w + 1);
  RefRelease r w := (None, w - 1)
|}.

(** Two download managers holding a bound. *)
#[global] Instance sim_TransferManager : TransferManager Z := {|
  SetConcurrency n _ := n;
  concurrencyLimit m := m
|}.

(** Platforms that match when OS and architecture agree; the machine runs
    linux/amd64 and can emulate linux/arm64. *)
#[global] Instance sim_PlatformEnv : PlatformEnv := {|
  Only_Match m p :=
    bool_decide (plat_OS m = plat_OS p /\ plat_Architecture m = plat_Architecture p);
  DefaultSpec := mkPlatform "amd64" "linux" EmptyString [] EmptyString;
  SupportedPlatforms _ :=
    [mkPlatform "amd64" "linux" EmptyString [] EmptyString;
     mkPlatform "arm64" "linux" EmptyString [] EmptyString]
|}.

(** Digests are accepted when they start with the sha256 prefix. *)
#[global] Instance sim_DigestLib : DigestLib := {|
  digest_Parse s :=
    if String.prefix "sha256:" s then Ok s
    else Err (ErrorString "invalid checksum digest format")
|}.

(** Layer access that knows the diff IDs of every ref. *)
#[global] Instance sim_LayerAccess : LayerAccess Z := {|
  GetDiffIDs key w := (Ok ["sha256:d1"; "sha256:d2"], w);
  EnsureLayer key w := (Ok ["sha256:d1"; "sha256:d2"], w + 1);
  ref_Finalize r w := (None, w);
  ref_Extract r w := (None, w)
|}.

(** A download manager that registers every layer it is given, and a content
    store whose Delete succeeds; the clock stands still. *)
#[global] Instance sim_RemoteEnv : RemoteEnv Z := {|
  Download layers w := (Ok (mkRootFS "layers" (ld_diffID <$> layers)), w);
  DownloadRelease w := w;
  ContentStore_Delete dgst w := (None, w);
  time_Now w := "2024-01-01T00:00:00Z";
  time_UnmarshalText s := Ok s
|}.

(** * Properties *)

(** ** Commit *)

Section CommitProperties.
Context {W : Type} `{!LayerStore W, !ImageStore W, !ImageCodec}.

(** Unfold the embedded commit down to the store operations. *)
Ltac unfold_commit :=
  unfold CommitImage, exportContainerRw, rwTar_Close, rwTar_closer,
    NewReadCloserWrapper, layer_ReleaseAndLog, LogImageEvent, defer,
    layerStore_GetRWLayer, layerStore_ReleaseRWLayer, rwlayer_Mount,
    rwlayer_Unmount, rwlayer_TarStream, archive_Close, layerStore_Register,
    imageStore_Get, imageStore_Create, imageStore_SetBuiltLocally,
    imageStore_SetParent, set_rcClosed, get_rcClosed, call, bind, ret.

(** Follow every path of the code: case on each outcome of a store. *)
Ltac paths :=
  repeat (case_match; simplify_eq; cbn [fst snd world calls events rcClosed] in *).

(** Bring a trace to the form [calls s ++ tr]. *)
Ltac trace_eq :=
  first [ symmetry; apply app_nil_r
        | rewrite <- ?app_assoc; cbn [app]; reflexivity ].

(** C5. A commit whose context is already cancelled at entry returns the
    context's error and leaves the state as it was: no call on a store, no
    event, nothing registered or created. *)
Theorem CommitImage_cancelled_at_entry (ctx : Context) (c : CommitConfig)
    (s : State W) (err : error) :
  ctx 0%nat = Some err ->
  CommitImage ctx c s = (Err err, s).
Proof.
  intros Hctx. unfold CommitImage. rewrite Hctx. reflexivity.
Qed.

(** C1 (amended). CommitImage logs one "create" event for the image record
    that imageStore.Create made, and nothing else: one event exactly when
    Create succeeded (also when SetBuiltLocally or SetParent fails after it
    and the error is returned), no event when the commit failed before or in
    Create; a successful return has exactly one event, for the ID
    returned. *)
Theorem CommitImage_event_per_created_record (ctx : Context) (c : CommitConfig)
    (s : State W) :
  exists tr,
    calls (CommitImage ctx c s).2 = calls s ++ tr
    /\ events (CommitImage ctx c s).2 = events s ++ map createEvent (createdIDs tr)
    /\ (length (createdIDs tr) <= 1)%nat
    /\ match (CommitImage ctx c s).1 with
       | Ok id => createdIDs tr = [id]
       | Err _ => True
       end.
Proof.
  unfold_commit. paths.
  all: eexists; (split; [trace_eq|]).
  all: cbn; rewrite ?app_nil_r; repeat split; auto.
Qed.

(** C4. Every exit of exportContainerRw and of CommitImage gives back the
    mount and the reference of the read-write layer that GetRWLayer handed
    out.  exportContainerRw works on that layer and no other: when Mount
    fails it releases it, when TarStream fails it unmounts and releases it,
    before the error is returned; on success it returns the reader of the
    archive TarStream gave, on that layer, and holds one mount and one
    reference.  The first Close of a reader closes its archive, unmounts its
    layer and releases it on the store, in whatever state the stores are by
    then; a second Close does nothing.  CommitImage returns the error of a
    failed export as it is; after a successful export it makes no further
    call on a read-write layer until, on every path out, it closes the reader
    the export returned.  So a whole CommitImage ends with every mount and
    reference given back, whether it fails or succeeds. *)
Theorem commit_export_releases_rw_layer (ctx : Context) (c : CommitConfig)
    (id mountLabel : string) (s : State W) :
  exportContainerRw id mountLabel s
  = match GetRWLayer id (world s) with
    | (Err err, w1) =>
        (Err err,
         mkState w1 (calls s ++ [CGetRWLayer id false]) (events s) (rcClosed s))
    | (Ok rw, w1) =>
        match Mount rw mountLabel w1 with
        | (Err err, w2) =>
            let rel := ReleaseRWLayer rw w2 in
            (Err err,
             mkState rel.2
               (calls s ++ [CGetRWLayer id true; CMount rw mountLabel false;
                            CReleaseRWLayer rw (is_nil rel.1.2)])
               (events s) (rcClosed s))
        | (Ok _, w2) =>
            match TarStream rw w2 with
            | (Err err, w3) =>
                let unm := Unmount rw w3 in
                let rel := ReleaseRWLayer rw unm.2 in
                (Err err,
                 mkState rel.2
                   (calls s ++ [CGetRWLayer id true; CMount rw mountLabel true;
                                CTarStream rw false; CUnmount rw (is_nil unm.1);
                                CReleaseRWLayer rw (is_nil rel.1.2)])
                   (events s) (rcClosed s))
            | (Ok archive, w3) =>
                (Ok (mkReadCloser archive rw),
                 mkState w3
                   (calls s ++ [CGetRWLayer id true; CMount rw mountLabel true;
                                CTarStream rw true])
                   (events s) false)
            end
        end
    end
  /\ (forall (rd : ReadCloser) (w : W) (cs : list Call) (ev : list Event),
         rwTar_Close rd (mkState w cs ev false)
         = (let clo := ArchiveClose (rc_archive rd) w in
            let unm := Unmount (rc_rwlayer rd) clo.2 in
            let rel := ReleaseRWLayer (rc_rwlayer rd) unm.2 in
            (unm.1,
             mkState rel.2
               (cs ++ [CArchiveClose (rc_archive rd);
                       CUnmount (rc_rwlayer rd) (is_nil unm.1);
                       CReleaseRWLayer (rc_rwlayer rd) (is_nil rel.1.2)])
               ev true))
         /\ rwTar_Close rd (mkState w cs ev true) = (None, mkState w cs ev true))
  /\ match ctx 0%nat with
     | Some err => CommitImage ctx c s = (Err err, s)
     | None =>
         match exportContainerRw (ContainerID c) (ContainerMountLabel c) s with
         | (Err err, s1) => CommitImage ctx c s = (Err err, s1)
         | (Ok rwTar, s1) =>
             exists (r : result ImageID) (s2 : State W) (mid : list Call),
               CommitImage ctx c s = (r, (rwTar_Close rwTar s2).2)
               /\ calls s2 = calls s1 ++ mid
               /\ Forall (fun call => isRWLayerCall call = false) mid
               /\ rcClosed s2 = false
         end
     end
  /\ (exists tr,
         calls (CommitImage ctx c s).2 = calls s ++ tr
         /\ mountBalance tr = 0
         /\ rwRefBalance tr = 0).
Proof.
  split; [|split; [|split]].
  - unfold_commit. paths.
    all: cbn;
      repeat (match goal with
              | H : ?x = (_, _) |- context [?x] => rewrite H
              end; cbn [fst snd]);
      cbn; rewrite <- ?app_assoc; reflexivity.
  - intros rd w cs ev. unfold_commit. cbn [rcClosed world calls events].
    split; [|reflexivity]. paths.
    cbn;
      repeat (match goal with
              | H : ?x = (_, _) |- context [?x] => rewrite H
              end; cbn [fst snd]);
      cbn; rewrite <- ?app_assoc; reflexivity.
  - destruct (ctx 0%nat) as [err|] eqn:Hctx.
    { unfold CommitImage. rewrite Hctx. reflexivity. }
    destruct (exportContainerRw (ContainerID c) (ContainerMountLabel c) s)
      as [[rwTar|err] s1] eqn:Hexp.
    + assert (rcClosed s1 = false) as Hopen.
      { revert Hexp. unfold_commit. paths; intros Heq; simplify_eq; reflexivity. }
      unfold CommitImage. rewrite Hctx. unfold bind at 1. rewrite Hexp.
      unfold defer at 1. unfold bind at 1.
      match goal with
      | |- context [let '(a, s') := ?body s1 in _] =>
          destruct (body s1) as [r s2] eqn:Hbody
      end.
      assert (exists mid,
                 calls s2 = calls s1 ++ mid
                 /\ Forall (fun call => isRWLayerCall call = false) mid
                 /\ rcClosed s2 = rcClosed s1) as (mid & Hmid & Hnone & Hflag).
      { revert Hbody. unfold_commit. paths; intros Heq; simplify_eq;
          cbn [calls rcClosed];
          (eexists; split; [trace_eq|split; [repeat constructor|reflexivity]]). }
      exists r, s2, mid. rewrite Hflag.
      split; [|auto]. unfold bind, ret.
      destruct (rwTar_Close rwTar s2) as [e s3]. reflexivity.
    + unfold CommitImage. rewrite Hctx. unfold bind at 1. rewrite Hexp. reflexivity.
  - unfold_commit. paths.
    all: eexists; (split; [trace_eq|]).
    all: split; reflexivity.
Qed.


(** C6. When ReleaseRWLayer fails, ReleaseLayer returns nil if the error is
    (or wraps) ErrMountDoesNotExist or os.ErrNotExist, and otherwise returns
    that error wrapped in a message that names the storage driver. *)
Theorem ReleaseLayer_absent_mount_is_clean (l : RWLayer) (s : State W)
    (metaData : list Metadata) (err : error) (w' : W) :
  ReleaseRWLayer l (world s) = ((metaData, Some err), w') ->
  (ReleaseLayer (LayerRWLayer l) s).1
  = if errors_Is err ErrMountDoesNotExist || errors_Is err ErrNotExist
    then None
    else Some (Wrapped (String.append "driver "
                          (String.append (quote (DriverName w'))
                             " failed to remove root filesystem"))
                       err).
Proof.
  intros Hrel.
  assert (Hlog : forall (md : list Metadata) (t : State W),
             world (logCleanedUp md t).2 = world t).
  { induction md as [|m md IH]; intros t; [reflexivity|].
    cbn. unfold bind, log_Infof. cbn. rewrite IH. reflexivity. }
  unfold ReleaseLayer, layerStore_ReleaseRWLayer, call, bind.
  rewrite Hrel. cbn [fst snd].
  match goal with
  | |- context [logCleanedUp metaData ?t0] =>
      pose proof (Hlog metaData t0) as Hw;
      destruct (logCleanedUp metaData t0) as [[] t]
  end.
  cbn in Hw.
  destruct (errors_Is err ErrMountDoesNotExist), (errors_Is err ErrNotExist);
    cbn; try reflexivity.
  unfold layerStore_DriverName, ret. cbn. rewrite Hw. reflexivity.
Qed.

(** C10. For a container with an empty ImageID, CreateLayer makes a single
    call, CreateRWLayer with the empty parent chain ID, and none on the image
    store.  With a non-empty ImageID it asks the image store for that image
    first: an error of Get is returned as it is and no layer is created;
    otherwise the layer is created on the chain ID of the image's root
    filesystem. *)
Theorem CreateLayer_consults_image_store_only_for_image (container : Container)
    (initFunc : string) (s : State W) :
  if decide (ctr_ImageID container = EmptyString)
  then
    CreateLayer container initFunc s
    = layerStore_CreateRWLayer (ctr_ID container) EmptyString
        (mkCreateRWLayerOpts (ctr_MountLabel container) initFunc
                             (ctr_StorageOpt container)) s
    /\ exists ok,
         calls (CreateLayer container initFunc s).2
         = calls s ++ [CCreateRWLayer (ctr_ID container) EmptyString
                         (mkCreateRWLayerOpts (ctr_MountLabel container) initFunc
                                              (ctr_StorageOpt container)) ok]
  else
    match Get (ctr_ImageID container) (world s) with
    | (Err err, w') =>
        CreateLayer container initFunc s
        = (Err err,
           mkState w' (calls s ++ [CImageGet (ctr_ImageID container) false])
                   (events s) (rcClosed s))
    | (Ok img, w') =>
        CreateLayer container initFunc s
        = layerStore_CreateRWLayer (ctr_ID container)
            (RootFS_ChainID (img_RootFS img))
            (mkCreateRWLayerOpts (ctr_MountLabel container) initFunc
                                 (ctr_StorageOpt container))
            (mkState w' (calls s ++ [CImageGet (ctr_ImageID container) true])
                     (events s) (rcClosed s))
    end.
Proof.
  unfold CreateLayer, CreateLayerFromImage, imageStore_Get, bind, ret.
  destruct (decide (ctr_ImageID container = EmptyString)) as [Heq|Hne].
  - split; [reflexivity|].
    unfold layerStore_CreateRWLayer, call.
    destruct (CreateRWLayer _ _ _ _) as [r w']. cbn. eauto.
  - unfold call.
    destruct (Get (ctr_ImageID container) (world s)) as [[img|err] w'];
      reflexivity.
Qed.

End CommitProperties.

(** An image-less container on the in-memory stores: one call, on the empty
    chain. *)
Example CreateLayer_sim_no_image :
  CreateLayer (mkContainer "ctr-2" EmptyString "label" ∅) "init"
              (sim_state sim_init)
  = (Ok (mkRWLayer "ctr-2"),
     mkState (mkSim 0 1 0 [] false false None)
       [CCreateRWLayer "ctr-2" EmptyString
          (mkCreateRWLayerOpts "label" "init" ∅) true]
       [] false).
Proof. vm_compute. reflexivity. Qed.

(** A container of an image the in-memory image store does not have: the
    error of Get comes back and no layer is created. *)
Example CreateLayer_sim_missing_image :
  CreateLayer (mkContainer "ctr-3" "sha256:gone" "label" ∅) "init"
              (sim_state sim_init)
  = (Err (ErrorString "no such image"),
     mkState sim_init [CImageGet "sha256:gone" false] [] false).
Proof. vm_compute. reflexivity. Qed.

(** A successful commit on the in-memory stores: one image record, one event,
    and no mount, read-write layer reference or layer reference left. *)
Example CommitImage_sim_success :
  CommitImage background sim_commit (sim_state sim_init)
  = (Ok "sha256:cfg",
     mkState (mkSim 0 0 0 ["sha256:cfg"] false false None)
       [CGetRWLayer "ctr-1" true;
        CMount (mkRWLayer "ctr-1") "label" true;
        CTarStream (mkRWLayer "ctr-1") true;
        CRegister EmptyString (Some sim_layer);
        CCreate "cfg" (Some "sha256:cfg");
        CSetBuiltLocally "sha256:cfg" true;
        CRelease sim_layer;
        CArchiveClose (mkArchive (mkRWLayer "ctr-1"));
        CUnmount (mkRWLayer "ctr-1") true;
        CReleaseRWLayer (mkRWLayer "ctr-1") true]
       [createEvent "sha256:cfg"]
       true).
Proof. vm_compute. reflexivity. Qed.

(** A failing Mount on the in-memory stores: the reference taken by
    GetRWLayer is given back before the error is returned. *)
Example exportContainerRw_sim_mount_fails :
  exportContainerRw "ctr-1" "label" (sim_state (mkSim 0 0 0 [] true false None))
  = (Err (ErrorString "mount failed"),
     mkState (mkSim 0 0 0 [] true false None)
       [CGetRWLayer "ctr-1" true;
        CMount (mkRWLayer "ctr-1") "label" false;
        CReleaseRWLayer (mkRWLayer "ctr-1") true]
       [] false).
Proof. vm_compute. reflexivity. Qed.

(** errors.Is looks through wrapping. *)
Example errors_Is_wrapped :
  errors_Is (Wrapped "remove mount" (Wrapped "stat" ErrNotExist)) ErrNotExist = true
  /\ errors_Is (Wrapped "remove mount" (ErrorString "busy")) ErrNotExist = false.
Proof. split; reflexivity. Qed.

(** A release that fails for another reason on the in-memory stores: the
    error comes back wrapped, naming the driver. *)
Example ReleaseLayer_sim_other_error :
  (ReleaseLayer (LayerRWLayer (mkRWLayer "ctr-1"))
     (sim_state (mkSim 0 1 0 [] false false (Some (ErrorString "device busy"))))).1
  = Some (Wrapped (String.append "driver "
                     (String.append (quote "overlay2")
                        " failed to remove root filesystem"))
                  (ErrorString "device busy")).
Proof. vm_compute. reflexivity. Qed.

(** C5, on the in-memory stores: a cancelled commit changes nothing. *)
Lemma CommitImage_cancelled_at_entry_witness :
  (fun _ : nat => Some ErrCanceled) 0%nat = Some ErrCanceled
  /\ CommitImage (fun _ => Some ErrCanceled) sim_commit (sim_state sim_init)
     = (Err ErrCanceled, sim_state sim_init).
Proof.
  split; [reflexivity|].
  apply (CommitImage_cancelled_at_entry (fun _ => Some ErrCanceled) sim_commit
           (sim_state sim_init) ErrCanceled).
  reflexivity.
Defined.

(** C1 as stated fails: with a store whose SetBuiltLocally fails, CommitImage
    returns the error although the "create" event of the new record has been
    logged. *)
Lemma CommitImage_error_after_event :
  (CommitImage background sim_commit
     (sim_state (mkSim 0 0 0 [] false true None))).1
  = Err (ErrorString "failed to write built-locally flag")
  /\ events (CommitImage background sim_commit
               (sim_state (mkSim 0 0 0 [] false true None))).2
     = [createEvent "sha256:cfg"].
Proof. split; vm_compute; reflexivity. Qed.

(** C6, on the in-memory stores: the driver reports a wrapped "file does not
    exist" and the release succeeds. *)
Lemma ReleaseLayer_absent_mount_is_clean_witness :
  ReleaseRWLayer (mkRWLayer "ctr-1")
    (world (sim_state (mkSim 0 1 0 [] false false
                         (Some (Wrapped "remove mount" ErrNotExist)))))
  = (([], Some (Wrapped "remove mount" ErrNotExist)),
     mkSim 0 0 0 [] false false (Some (Wrapped "remove mount" ErrNotExist)))
  /\ (ReleaseLayer (LayerRWLayer (mkRWLayer "ctr-1"))
        (sim_state (mkSim 0 1 0 [] false false
                      (Some (Wrapped "remove mount" ErrNotExist))))).1
     = None.
Proof.
  split; [reflexivity|].
  apply (ReleaseLayer_absent_mount_is_clean (mkRWLayer "ctr-1")
           (sim_state (mkSim 0 1 0 [] false false
                         (Some (Wrapped "remove mount" ErrNotExist))))
           [] (Wrapped "remove mount" ErrNotExist)
           (mkSim 0 0 0 [] false false (Some (Wrapped "remove mount" ErrNotExist)))).
  reflexivity.
Defined.

(** ** Disk usage *)

Lemma wrap64_range (z : Z) : - 2 ^ 63 <= wrap64 z < 2 ^ 63.
Proof.
  unfold wrap64. pose proof (Z.mod_pos_bound (z + 2 ^ 63) (2 ^ 64)). lia.
Qed.

Lemma wrap64_small (z : Z) : - 2 ^ 63 <= z < 2 ^ 63 -> wrap64 z = z.
Proof.
  intros Hz. unfold wrap64. rewrite Z.mod_small; lia.
Qed.

Lemma wrap64_add_l (a b : Z) : wrap64 (wrap64 a + b) = wrap64 (a + b).
Proof.
  unfold wrap64.
  replace (((a + 2 ^ 63) mod 2 ^ 64 - 2 ^ 63 + b + 2 ^ 63))
    with ((a + 2 ^ 63) mod 2 ^ 64 + b) by lia.
  rewrite Zplus_mod_idemp_l. f_equal. f_equal. lia.
Qed.

Section DiskUsageProperties.
Context `{!ImageCodec}.

Lemma countChain_bump (ids : list DiffID) :
  forall (rootFS : RootFS) (layerRefs : gmap ChainID Z),
    countChain rootFS ids layerRefs
    = fold_left bump (chainIDsFrom rootFS ids) layerRefs.
Proof.
  induction ids as [|id rest IH]; intros rootFS layerRefs; [reflexivity|].
  cbn [countChain]. rewrite IH. unfold chainIDsFrom.
  cbn [length seq fmap list_fmap fold_left].
  f_equal.
  rewrite <- (fmap_S_seq 1), <- list_fmap_compose.
  apply list_fmap_ext. intros _ n _. cbn.
  rewrite <- app_assoc. reflexivity.
Qed.

Lemma getLayerRefs_in_bump (st : Stores) (order : list (ImageID * Image)) :
  forall layerRefs : gmap ChainID Z,
    fold_left (getLayerRefs_step st) order layerRefs
    = fold_left bump (order ≫= keptChainsOf st) layerRefs.
Proof.
  induction order as [|[id img] order IH]; intros layerRefs; [reflexivity|].
  cbn [fold_left]. rewrite IH. rewrite bind_cons, fold_left_app. f_equal.
  unfold getLayerRefs_step, keptChainsOf. cbn [fst snd].
  destruct (skipped st id); [reflexivity|].
  apply countChain_bump.
Qed.

Lemma fold_bump_lookup (l : list ChainID) :
  forall (m : gmap ChainID Z) (c : ChainID),
    fold_left bump l m !! c
    = match length (filter (fun x => x = c) l) with
      | O => m !! c
      | S n => Some (wrap64 (default 0 (m !! c) + Z.of_nat (S n)))
      end.
Proof.
  induction l as [|a l IH]; intros m c; [reflexivity|].
  cbn [fold_left]. rewrite IH. unfold bump at 1 2, add64.
  destruct (decide (a = c)) as [->|Hne].
  - rewrite filter_cons_True by reflexivity. rewrite lookup_insert_eq.
    cbn [length default].
    destruct (length (filter (fun x => x = c) l)) as [|n]; [reflexivity|].
    unfold id. rewrite wrap64_add_l. do 2 f_equal. lia.
  - rewrite filter_cons_False by exact Hne. rewrite lookup_insert_ne by exact Hne.
    reflexivity.
Qed.

Lemma count_zero_not_elem (l : list ChainID) (c : ChainID) :
  length (filter (fun x => x = c) l) = 0%nat <-> c ∉ l.
Proof.
  rewrite length_zero_iff_nil. split.
  - intros Hnil Hin.
    assert (c ∈ filter (fun x => x = c) l) as Hc
      by (apply list_elem_of_filter; auto).
    rewrite Hnil in Hc. inversion Hc.
  - intros Hnot. destruct (filter (fun x => x = c) l) as [|y ys] eqn:Hf; [reflexivity|].
    assert (y ∈ filter (fun x => x = c) l) as Hy by (rewrite Hf; left).
    apply list_elem_of_filter in Hy as [-> Hy]. contradiction.
Qed.

(** The map getLayerRefs builds, entry by entry. *)
Lemma getLayerRefs_in_lookup (st : Stores) (order : list (ImageID * Image))
    (chid : ChainID) :
  order ≡ₚ map_to_list (imageStore_Map st) ->
  getLayerRefs_in st order !! chid
  = match referenceCount st chid with
    | O => None
    | S n => Some (wrap64 (Z.of_nat (S n)))
    end.
Proof.
  intros Hperm. unfold getLayerRefs_in, referenceCount.
  rewrite getLayerRefs_in_bump, fold_bump_lookup, lookup_empty.
  rewrite Hperm. reflexivity.
Qed.

Lemma getLayerRefs_in_dom (st : Stores) (order : list (ImageID * Image)) :
  order ≡ₚ map_to_list (imageStore_Map st) ->
  dom (getLayerRefs_in st order) = referencedChains st.
Proof.
  intros Hperm. apply set_eq. intros c.
  rewrite elem_of_dom, (getLayerRefs_in_lookup st order c Hperm).
  unfold referencedChains. rewrite elem_of_list_to_set.
  pose proof (count_zero_not_elem
                (map_to_list (imageStore_Map st) ≫= keptChainsOf st) c) as Hz.
  unfold referenceCount.
  destruct (length _) as [|n].
  - split; [intros [? ?]; discriminate|].
    intros Hin. exfalso. apply Hz; [reflexivity|exact Hin].
  - split; [|eauto]. intros _.
    destruct (decide (c ∈ map_to_list (imageStore_Map st) ≫= keptChainsOf st));
      [assumption|].
    apply Hz in n0. discriminate.
Qed.

(** Which chain IDs are referenced, in the words of the specification. *)
Lemma referencedChains_spec (st : Stores) (chid : ChainID) :
  chid ∈ referencedChains st
  <-> exists (id : ImageID) (img : Image) (n : nat),
        imageStore_Map st !! id = Some img
        /\ skipped st id = false
        /\ (1 <= n <= length (DiffIDs (img_RootFS img)))%nat
        /\ chid = RootFS_ChainID (mkRootFS (rootfs_Type (img_RootFS img))
                                           (take n (DiffIDs (img_RootFS img)))).
Proof.
  unfold referencedChains. rewrite elem_of_list_to_set, list_elem_of_bind.
  split.
  - intros [[id img] [Hin Hel]]. apply elem_of_map_to_list in Hel.
    unfold keptChainsOf in Hin. cbn [fst snd] in Hin.
    destruct (skipped st id) eqn:Hsk; [inversion Hin|].
    unfold chainIDsOf, chainIDsFrom in Hin.
    apply list_elem_of_fmap in Hin as [n [-> Hn]].
    apply elem_of_seq in Hn. exists id, img, n.
    repeat split; auto; lia.
  - intros (id & img & n & Hel & Hsk & Hn & ->).
    exists (id, img). split; [|apply elem_of_map_to_list; exact Hel].
    unfold keptChainsOf. cbn [fst snd]. rewrite Hsk.
    unfold chainIDsOf, chainIDsFrom. apply list_elem_of_fmap.
    exists n. split; [reflexivity|]. apply elem_of_seq. lia.
Qed.

Lemma countedSize_cons (st : Stores) (l : Layer) (ls : list Layer) :
  countedSize st (l :: ls)
  = (if decide (layer_ChainID l ∈ referencedChains st)
     then layer_DiffSize l else 0) + countedSize st ls.
Proof.
  unfold countedSize. rewrite filter_cons.
  destruct (decide _); reflexivity.
Qed.

Lemma countedSize_perm (st : Stores) (ls ls' : list Layer) :
  ls ≡ₚ ls' -> countedSize st ls = countedSize st ls'.
Proof.
  intros Hperm. induction Hperm as [|x l l' _ IH|x y l|l l' l'' _ IH1 _ IH2].
  - reflexivity.
  - rewrite !countedSize_cons, IH. reflexivity.
  - rewrite !countedSize_cons. lia.
  - congruence.
Qed.

Lemma countedSize_take (st : Stores) (ls : list Layer) :
  (forall l, l ∈ ls -> 0 <= layer_DiffSize l) ->
  forall k : nat, 0 <= countedSize st (take k ls) <= countedSize st ls.
Proof.
  induction ls as [|l ls IH]; intros Hpos k.
  - rewrite take_nil. change (countedSize st []) with 0. lia.
  - assert (0 <= layer_DiffSize l) by (apply Hpos; left).
    assert (forall k, 0 <= countedSize st (take k ls) <= countedSize st ls) as IH'
      by (apply IH; intros l' Hl'; apply Hpos; right; exact Hl').
    destruct k as [|k]; cbn [take].
    + rewrite countedSize_cons. specialize (IH' 0%nat). rewrite take_0 in IH'.
      change (countedSize st []) with 0 in *.
      destruct (decide _); lia.
    + rewrite !countedSize_cons. specialize (IH' k).
      destruct (decide _); lia.
Qed.

(** The loop, while the context stays live: every layer is visited. *)
Lemma diskUsageLoop_live (st : Stores) (ctx : Context)
    (layerRefs : gmap ChainID Z) (todo : list Layer) :
  dom layerRefs = referencedChains st ->
  forall (acc : Z) (n : nat),
    (forall j, (j < length todo)%nat -> ctx (n + j)%nat = None) ->
    wrap64 acc = acc ->
    diskUsageLoop ctx layerRefs todo acc n
    = ((wrap64 (acc + countedSize st todo), None), (n + length todo)%nat).
Proof.
  intros Hdom.
  induction todo as [|l rest IH]; intros acc n Hlive Hacc.
  - cbn. unfold ret. rewrite Z.add_0_r, Hacc, Nat.add_0_r. reflexivity.
  - cbn [diskUsageLoop]. unfold bind, poll.
    pose proof (Hlive 0%nat ltac:(cbn; lia)) as H0. rewrite Nat.add_0_r in H0.
    rewrite H0. rewrite countedSize_cons.
    rewrite IH.
    + cbn [length]. rewrite <- Hdom.
      destruct (layerRefs !! layer_ChainID l) as [v|] eqn:Hl.
      * rewrite decide_True by (apply elem_of_dom; eauto).
        unfold add64. rewrite wrap64_add_l.
        rewrite ?Z.add_0_l, ?Z.add_assoc, ?Nat.add_succ_r; reflexivity.
      * rewrite decide_False by (apply not_elem_of_dom; exact Hl).
        rewrite ?Z.add_0_l, ?Z.add_assoc, ?Nat.add_succ_r; reflexivity.
    + intros j Hj. replace (S n + j)%nat with (n + S j)%nat by lia.
      apply Hlive. cbn. lia.
    + destruct (layerRefs !! layer_ChainID l); [|exact Hacc].
      unfold add64. apply wrap64_small, wrap64_range.
Qed.

(** The loop, when the context is first seen cancelled at the k-th visit. *)
Lemma diskUsageLoop_cancelled (st : Stores) (ctx : Context)
    (layerRefs : gmap ChainID Z) (err : error) (todo : list Layer) :
  dom layerRefs = referencedChains st ->
  forall (k : nat) (acc : Z) (n : nat),
    (k < length todo)%nat ->
    (forall j, (j < k)%nat -> ctx (n + j)%nat = None) ->
    ctx (n + k)%nat = Some err ->
    wrap64 acc = acc ->
    diskUsageLoop ctx layerRefs todo acc n
    = ((wrap64 (acc + countedSize st (take k todo)), Some err), (n + S k)%nat).
Proof.
  intros Hdom.
  induction todo as [|l rest IH]; intros k acc n Hk Hlive Hcancel Hacc.
  - cbn in Hk. lia.
  - cbn [diskUsageLoop]. unfold bind, poll.
    destruct k as [|k].
    + rewrite Nat.add_0_r in Hcancel. rewrite Hcancel. unfold ret.
      rewrite take_0. cbn. rewrite Z.add_0_r, Hacc.
      do 2 f_equal. lia.
    + pose proof (Hlive 0%nat ltac:(lia)) as H0. rewrite Nat.add_0_r in H0.
      rewrite H0. cbn [take]. rewrite countedSize_cons.
      rewrite (IH k).
      * rewrite <- Hdom.
        destruct (layerRefs !! layer_ChainID l) as [v|] eqn:Hl.
        -- rewrite decide_True by (apply elem_of_dom; eauto).
           unfold add64. rewrite wrap64_add_l.
           rewrite ?Z.add_0_l, ?Z.add_assoc, ?Nat.add_succ_r; reflexivity.
        -- rewrite decide_False by (apply not_elem_of_dom; exact Hl).
           rewrite ?Z.add_0_l, ?Z.add_assoc, ?Nat.add_succ_r; reflexivity.
      * cbn in Hk. lia.
      * intros j Hj. replace (S n + j)%nat with (n + S j)%nat by lia.
        apply Hlive. lia.
      * replace (S n + k)%nat with (n + S k)%nat by lia. exact Hcancel.
      * destruct (layerRefs !! layer_ChainID l); [|exact Hacc].
        unfold add64. apply wrap64_small, wrap64_range.
Qed.

(** C2. Whatever order the two maps are iterated in, getLayerRefs counts, for
    every chain ID, its occurrences along the root filesystem chains of the
    images that are not skipped (skipped: no entry in the reference store and
    a non-empty set of children), and ImageDiskUsage returns the sum of
    DiffSize over the layers of the layer-store snapshot whose chain ID is in
    that map: each such layer once, however many images share it, and no
    layer that only skipped images reach.  The context is observed once per
    layer. *)
Theorem ImageDiskUsage_sums_referenced_layers (st : Stores)
    (imageOrder : list (ImageID * Image)) (layerOrder : list (ChainID * Layer)) :
  imageOrder ≡ₚ map_to_list (imageStore_Map st) ->
  layerOrder ≡ₚ map_to_list (layerStore_Map st) ->
  (forall chid : ChainID,
      getLayerRefs_in st imageOrder !! chid
      = match referenceCount st chid with
        | O => None
        | S n => Some (wrap64 (Z.of_nat (S n)))
        end)
  /\ (forall chid : ChainID,
         chid ∈ dom (getLayerRefs_in st imageOrder)
         <-> exists (id : ImageID) (img : Image) (n : nat),
               imageStore_Map st !! id = Some img
               /\ skipped st id = false
               /\ (1 <= n <= length (DiffIDs (img_RootFS img)))%nat
               /\ chid = RootFS_ChainID
                           (mkRootFS (rootfs_Type (img_RootFS img))
                                     (take n (DiffIDs (img_RootFS img)))))
  /\ ImageDiskUsage_in background st imageOrder layerOrder 0%nat
     = ((wrap64
           (foldr Z.add 0
              (layer_DiffSize
                 <$> filter (fun l => layer_ChainID l
                                      ∈ dom (getLayerRefs_in st imageOrder))
                            (map_to_list (layerStore_Map st)).*2)),
         None),
        length layerOrder).
Proof.
  intros Himg Hlay.
  pose proof (getLayerRefs_in_dom st imageOrder Himg) as Hdom.
  split; [|split].
  - intros chid. apply getLayerRefs_in_lookup, Himg.
  - intros chid. rewrite Hdom. apply referencedChains_spec.
  - unfold ImageDiskUsage_in.
    rewrite (diskUsageLoop_live st background _ _ Hdom 0 0%nat);
      [|reflexivity|reflexivity].
    rewrite length_fmap, Z.add_0_l, Hdom.
    do 3 f_equal. apply countedSize_perm. rewrite Hlay. reflexivity.
Qed.

(** C3 (amended). When the context is first seen cancelled at the visit of
    the layer at position k, ImageDiskUsage returns the size accumulated over the k
    layers visited before, together with the context's error, after one
    observation of the context per layer visited.  When no layer has a
    negative size and the total fits in an int64, that partial size is
    between 0 and the total an uncancelled run returns, in whatever order
    that run iterates. *)
Theorem ImageDiskUsage_cancelled_partial (st : Stores) (ctx : Context)
    (imageOrder imageOrder' : list (ImageID * Image))
    (layerOrder layerOrder' : list (ChainID * Layer)) (k : nat) (err : error) :
  imageOrder ≡ₚ map_to_list (imageStore_Map st) ->
  layerOrder ≡ₚ map_to_list (layerStore_Map st) ->
  imageOrder' ≡ₚ map_to_list (imageStore_Map st) ->
  layerOrder' ≡ₚ map_to_list (layerStore_Map st) ->
  (k < length layerOrder)%nat ->
  (forall j, (j < k)%nat -> ctx j = None) ->
  ctx k = Some err ->
  ImageDiskUsage_in ctx st imageOrder layerOrder 0%nat
  = ((wrap64 (countedSize st (take k layerOrder.*2)), Some err), S k)
  /\ ((forall (chid : ChainID) (l : Layer),
          layerStore_Map st !! chid = Some l -> 0 <= layer_DiffSize l) ->
      referencedSize st < 2 ^ 63 ->
      0 <= (ImageDiskUsage_in ctx st imageOrder layerOrder 0%nat).1.1
        <= (ImageDiskUsage_in background st imageOrder' layerOrder' 0%nat).1.1).
Proof.
  intros Himg Hlay Himg' Hlay' Hk Hlive Hcancel.
  pose proof (getLayerRefs_in_dom st imageOrder Himg) as Hdom.
  pose proof (getLayerRefs_in_dom st imageOrder' Himg') as Hdom'.
  assert (ImageDiskUsage_in ctx st imageOrder layerOrder 0%nat
          = ((wrap64 (countedSize st (take k layerOrder.*2)), Some err), S k))
    as Hpartial.
  { unfold ImageDiskUsage_in.
    rewrite (diskUsageLoop_cancelled st ctx _ err _ Hdom k 0 0%nat);
      [reflexivity|rewrite length_fmap; exact Hk|exact Hlive|exact Hcancel
      |reflexivity]. }
  split; [exact Hpartial|].
  intros Hpos Hfit. rewrite Hpartial. cbn [fst snd].
  unfold ImageDiskUsage_in.
  rewrite (diskUsageLoop_live st background _ _ Hdom' 0 0%nat);
    [|reflexivity|reflexivity].
  cbn [fst snd]. rewrite Z.add_0_l.
  assert (countedSize st layerOrder'.*2 = referencedSize st) as Htot.
  { apply countedSize_perm. rewrite Hlay'. reflexivity. }
  assert (countedSize st layerOrder.*2 = referencedSize st) as Htot0.
  { apply countedSize_perm. rewrite Hlay. reflexivity. }
  assert (forall l, l ∈ layerOrder.*2 -> 0 <= layer_DiffSize l) as Hpos'.
  { intros l Hl. apply list_elem_of_fmap in Hl as [[chid l'] [-> Hl]].
    rewrite Hlay in Hl. apply elem_of_map_to_list in Hl. eapply Hpos, Hl. }
  pose proof (countedSize_take st layerOrder.*2 Hpos' k) as Hle.
  rewrite Htot0 in Hle. rewrite Htot.
  rewrite !wrap64_small by lia. exact Hle.
Qed.

End DiskUsageProperties.

(** C2, on the four images and layers above: the layers d1, d1+d2 and d3 are
    counted once each, d4 (reached only from a skipped image) is not. *)
Lemma ImageDiskUsage_sums_referenced_layers_witness :
  map_to_list (imageStore_Map sim_stores) ≡ₚ map_to_list (imageStore_Map sim_stores)
  /\ map_to_list (layerStore_Map sim_stores) ≡ₚ map_to_list (layerStore_Map sim_stores)
  /\ ImageDiskUsage background sim_stores 0%nat = ((125, None), 4%nat).
Proof.
  split; [reflexivity|]. split; [reflexivity|].
  unfold ImageDiskUsage.
  rewrite (proj2 (proj2 (ImageDiskUsage_sums_referenced_layers sim_stores
                           (map_to_list (imageStore_Map sim_stores))
                           (map_to_list (layerStore_Map sim_stores))
                           (reflexivity _) (reflexivity _)))).
  vm_compute. reflexivity.
Defined.

(** C3, on the same stores: cancelled at the third layer, the scan returns
    the 25 bytes of the two layers visited before, out of 125. *)
Lemma ImageDiskUsage_cancelled_partial_witness :
  (2 < length (map_to_list (layerStore_Map sim_stores)))%nat
  /\ sim_ctx 2%nat = Some ErrCanceled
  /\ referencedSize sim_stores < 2 ^ 63
  /\ ImageDiskUsage sim_ctx sim_stores 0%nat = ((25, Some ErrCanceled), 3%nat)
  /\ 0 <= (ImageDiskUsage sim_ctx sim_stores 0%nat).1.1
       <= (ImageDiskUsage background sim_stores 0%nat).1.1.
Proof.
  assert (2 < length (map_to_list (layerStore_Map sim_stores)))%nat as Hk
    by (vm_compute; lia).
  assert (forall j, (j < 2)%nat -> sim_ctx j = None) as Hlive
    by (intros [|[|j]] Hj; [reflexivity|reflexivity|lia]).
  assert (referencedSize sim_stores < 2 ^ 63) as Hfit
    by (vm_compute; reflexivity).
  assert (forall (chid : ChainID) (l : Layer),
             layerStore_Map sim_stores !! chid = Some l -> 0 <= layer_DiffSize l)
    as Hpos.
  { intros chid l Hl. apply elem_of_map_to_list in Hl.
    vm_compute in Hl.
    repeat (apply elem_of_cons in Hl as [Hl|Hl];
            [injection Hl as -> ->; vm_compute; discriminate|]).
    inversion Hl. }
  destruct (ImageDiskUsage_cancelled_partial sim_stores sim_ctx
              (map_to_list (imageStore_Map sim_stores))
              (map_to_list (imageStore_Map sim_stores))
              (map_to_list (layerStore_Map sim_stores))
              (map_to_list (layerStore_Map sim_stores))
              2%nat ErrCanceled (reflexivity _) (reflexivity _)
              (reflexivity _) (reflexivity _) Hk Hlive eq_refl)
    as [Hpartial Hbound].
  split; [exact Hk|]. split; [reflexivity|]. split; [exact Hfit|].
  split.
  - unfold ImageDiskUsage. rewrite Hpartial. vm_compute. reflexivity.
  - exact (Hbound Hpos Hfit).
Defined.

(** C3 as stated fails: on three referenced layers of 2^62 bytes each, a scan
    cancelled at the third layer returns a negative partial size, and a scan
    cancelled at the second layer returns a partial size above the total of
    the uncancelled scan (the int64 sum has wrapped around). *)
Lemma ImageDiskUsage_partial_out_of_bounds :
  ImageDiskUsage sim_ctx sim_huge_stores 0%nat = ((- 2 ^ 63, Some ErrCanceled), 3%nat)
  /\ ImageDiskUsage sim_ctx_early sim_huge_stores 0%nat
     = ((2 ^ 62, Some ErrCanceled), 2%nat)
  /\ ImageDiskUsage background sim_huge_stores 0%nat = ((- 2 ^ 62, None), 3%nat)
  /\ (ImageDiskUsage sim_ctx sim_huge_stores 0%nat).1.1 < 0
  /\ (ImageDiskUsage background sim_huge_stores 0%nat).1.1
     < (ImageDiskUsage sim_ctx_early sim_huge_stores 0%nat).1.1.
Proof. repeat split; vm_compute; reflexivity. Qed.

(** ** Transfer limits *)

Section TransferProperties.
Context {DM UM : Type} `{!TransferManager DM, !TransferManager UM}.

(** C8. UpdateConfig with maxDownloads = 0 makes no call on the download
    manager and leaves it, and so its bound, as it was; likewise for
    maxUploads = 0 and the upload manager; and what happens to one manager
    does not depend on the value given for the other. *)
Theorem UpdateConfig_zero_keeps_bound (i : Transfers DM UM)
    (maxDownloads maxUploads : Z) :
  (downloadManager (UpdateConfig 0 maxUploads i).2 = downloadManager i
   /\ concurrencyLimit <$> downloadManager (UpdateConfig 0 maxUploads i).2
      = concurrencyLimit <$> downloadManager i
   /\ forall n, DownloadSetConcurrency n ∈ xferCalls (UpdateConfig 0 maxUploads i).2
                <-> DownloadSetConcurrency n ∈ xferCalls i)
  /\ (uploadManager (UpdateConfig maxDownloads 0 i).2 = uploadManager i
      /\ concurrencyLimit <$> uploadManager (UpdateConfig maxDownloads 0 i).2
         = concurrencyLimit <$> uploadManager i
      /\ forall n, UploadSetConcurrency n ∈ xferCalls (UpdateConfig maxDownloads 0 i).2
                   <-> UploadSetConcurrency n ∈ xferCalls i)
  /\ uploadManager (UpdateConfig 0 maxUploads i).2
     = uploadManager (UpdateConfig maxDownloads maxUploads i).2
  /\ downloadManager (UpdateConfig maxDownloads 0 i).2
     = downloadManager (UpdateConfig maxDownloads maxUploads i).2.
Proof.
  unfold UpdateConfig, bind.
  destruct i as [[dm|] [um|] cs]; cbn;
    destruct (maxDownloads =? 0), (maxUploads =? 0); cbn;
    repeat split; auto;
    rewrite ?elem_of_app, ?list_elem_of_singleton;
    try tauto; intros; try tauto;
    match goal with
    | H : _ \/ _ |- _ => destruct H as [H|H]; [exact H|discriminate H]
    end.
Qed.

End TransferProperties.

(** ** Resolving a chain to a cache ref *)

Lemma index_last (l : list DiffID) (d : DiffID) :
  index (l ++ [d]) (len (l ++ [d]) - 1) = Some d.
Proof.
  unfold index, len. rewrite length_app. cbn [length].
  destruct (Z.ltb_spec (Z.of_nat (length l + 1) - 1) 0) as [Hlt|_]; [lia|].
  replace (Z.to_nat (Z.of_nat (length l + 1) - 1)) with (length l) by lia.
  apply list_lookup_middle. reflexivity.
Qed.

Lemma slice_to_last (l : list DiffID) (d : DiffID) :
  slice_to (l ++ [d]) (len (l ++ [d]) - 1) = l.
Proof.
  unfold slice_to, len. rewrite length_app. cbn [length].
  replace (Z.to_nat (Z.of_nat (length l + 1) - 1)) with (length l) by lia.
  apply take_app_length.
Qed.

Section WorkerProperties.
Context {W : Type} `{!CacheManager W}.

Lemma getRef_long (diffIDs : list DiffID) (opts : list string) :
  1 < len diffIDs ->
  getRef diffIDs opts
  = (p <- getRef (slice_to diffIDs (len diffIDs - 1)) opts ;;
     match p with
     | Return (Ok parent) =>
         r <- getByBlobLast diffIDs (Some parent) opts ;;
         _ <- ref_Release parent ;;
         ret r
     | Return (Err err) => ret (Return (Err err))
     | Panic msg => ret (Panic msg)
     end).
Proof.
  intros Hlen. rewrite getRef_equation_1.
  destruct (Z_lt_dec 1 (len diffIDs)) as [Hl|Hn]; [|contradiction].
  rewrite getRef_clause_1_equation_1. reflexivity.
Qed.

Lemma getRef_short (diffIDs : list DiffID) (opts : list string) :
  ~ 1 < len diffIDs ->
  getRef diffIDs opts = getByBlobLast diffIDs None opts.
Proof.
  intros Hlen. rewrite getRef_equation_1.
  destruct (Z_lt_dec 1 (len diffIDs)) as [Hl|Hn]; [contradiction|].
  simp getRef. reflexivity.
Qed.

(** What a run of getRef on a non-empty list asks the cache manager. *)
Lemma getRef_trace (opts : list string) (diffIDs : list DiffID) :
  diffIDs <> [] ->
  forall s : WorkerState W,
  exists (tr : list CacheCall) (k : nat),
    cacheCalls (getRef diffIDs opts s).2 = cacheCalls s ++ tr
    /\ (1 <= k <= length diffIDs)%nat
    /\ blobsAsked tr = take k diffIDs
    /\ match (getRef diffIDs opts s).1 with
       | Return (Ok _) => k = length diffIDs
       | Return (Err _) => True
       | Panic _ => False
       end.
Proof.
  induction diffIDs as [|d l IH] using rev_ind; [congruence|].
  intros _ s. destruct l as [|d0 l0].
  - rewrite getRef_short by (unfold len; cbn [length app]; lia).
    unfold getByBlobLast. rewrite (index_last [] d).
    unfold bind, cache_GetByBlob, ret.
    destruct (GetByBlob d None opts (cacheWorld s)) as [r w'].
    cbn. eexists _, 1%nat. split; [reflexivity|].
    cbn. repeat split; auto. destruct r; auto.
  - rewrite getRef_long by (unfold len; rewrite length_app; cbn [length]; lia).
    rewrite slice_to_last. unfold getByBlobLast. rewrite index_last.
    unfold bind, cache_GetByBlob, ref_Release, ret.
    destruct (IH ltac:(discriminate) s) as (tr & k & Htr & Hk & Hasked & Hres).
    destruct (getRef (d0 :: l0) opts s) as [p s1]. cbn [fst snd] in *.
    destruct p as [[parent|err]|msg]; [| |contradiction].
    + destruct (GetByBlob d (Some parent) opts (cacheWorld s1)) as [r w'].
      cbn [cacheWorld cacheCalls].
      destruct (RefRelease parent w') as [e w''].
      cbn [fst snd cacheCalls].
      eexists _, (length ((d0 :: l0) ++ [d])). split.
      { rewrite Htr, <- !app_assoc. reflexivity. }
      split; [rewrite length_app; cbn; lia|]. split.
      { unfold blobsAsked in *. rewrite omap_app, Hasked, Hres. cbn.
        rewrite firstn_all, take_ge by lia. reflexivity. }
      destruct r; auto.
    + exists tr, k. split; [exact Htr|].
      split; [rewrite length_app; cbn in *; lia|].
      split; [|exact I].
      rewrite Hasked, take_app_le by lia. reflexivity.
Qed.

(** C7. On a non-empty list of N diff IDs, getRef with N > 1 first runs
    getRef on the prefix of length N-1 (a list exactly one element shorter)
    to its end, and only when that returned a ref asks GetByBlob for
    position N with that ref as parent, releasing the parent afterwards; when
    the prefix fails, its error is returned and position N is not asked for.
    With N = 1 there is no ancestor and GetByBlob is asked with a nil parent.
    So GetByBlob is asked for the positions 1, 2, ... in order, for all N of
    them when a ref is returned, and getRef never panics on a non-empty
    list. *)
Theorem getRef_parent_before_child (opts : list string) (diffIDs : list DiffID)
    (s : WorkerState W) :
  diffIDs <> [] ->
  (length (slice_to diffIDs (len diffIDs - 1)) + 1 = length diffIDs)%nat
  /\ (exists (tr : list CacheCall) (k : nat),
         cacheCalls (getRef diffIDs opts s).2 = cacheCalls s ++ tr
         /\ (1 <= k <= length diffIDs)%nat
         /\ blobsAsked tr = take k diffIDs
         /\ match (getRef diffIDs opts s).1 with
            | Return (Ok _) => k = length diffIDs
            | Return (Err _) => True
            | Panic _ => False
            end)
  /\ (if Z_lt_dec 1 (len diffIDs)
      then
        match (getRef (slice_to diffIDs (len diffIDs - 1)) opts s).1 with
        | Return (Ok parent) =>
            exists (d : DiffID) (res : option ImmutableRef),
              index diffIDs (len diffIDs - 1) = Some d
              /\ cacheCalls (getRef diffIDs opts s).2
                 = cacheCalls (getRef (slice_to diffIDs (len diffIDs - 1)) opts s).2
                   ++ [CGetByBlob d (Some parent) res; CRefRelease parent]
              /\ res = match (getRef diffIDs opts s).1 with
                       | Return (Ok r) => Some r
                       | _ => None
                       end
        | Return (Err err) =>
            getRef diffIDs opts s
            = (Return (Err err),
               (getRef (slice_to diffIDs (len diffIDs - 1)) opts s).2)
        | Panic _ => False
        end
      else
        exists (d : DiffID) (res : option ImmutableRef),
          diffIDs = [d]
          /\ cacheCalls (getRef diffIDs opts s).2
             = cacheCalls s ++ [CGetByBlob d None res]).
Proof.
  intros Hne. split; [|split].
  - unfold slice_to, len. rewrite length_take.
    destruct diffIDs; [congruence|]. cbn [length]. lia.
  - apply getRef_trace, Hne.
  - destruct diffIDs as [|d l _] using rev_ind; [congruence|].
    destruct (Z_lt_dec 1 (len (l ++ [d]))) as [Hlong|Hshort].
    + rewrite (getRef_long (l ++ [d])) by exact Hlong.
      rewrite slice_to_last. unfold getByBlobLast. rewrite index_last.
      unfold bind, cache_GetByBlob, ref_Release, ret.
      assert (l <> []) as Hl.
      { intros ->. unfold len in Hlong. cbn in Hlong. lia. }
      destruct (getRef_trace opts l Hl s) as (tr & k & _ & _ & _ & Hres).
      destruct (getRef l opts s) as [p s1]. cbn [fst snd] in *.
      destruct p as [[parent|err]|msg]; [|reflexivity|exact Hres].
      destruct (GetByBlob d (Some parent) opts (cacheWorld s1)) as [r w'].
      cbn [cacheWorld cacheCalls].
      destruct (RefRelease parent w') as [e w''].
      cbn [fst snd cacheCalls].
      eexists d, _. split; [reflexivity|]. split.
      * rewrite <- app_assoc. reflexivity.
      * destruct r; reflexivity.
    + rewrite getRef_short by exact Hshort.
      assert (l = []) as ->.
      { destruct l; [reflexivity|].
        unfold len in Hshort. rewrite length_app in Hshort. cbn in Hshort. lia. }
      unfold getByBlobLast. rewrite (index_last [] d).
      unfold bind, cache_GetByBlob, ret.
      destruct (GetByBlob d None opts (cacheWorld s)) as [r w'].
      cbn. eauto.
Qed.

End WorkerProperties.

(** C7, on the cache manager that always finds the blob: three diff IDs are
    asked for in order, each with the ref of the one before as parent. *)
Lemma getRef_parent_before_child_witness :
  ["d1"; "d2"; "d3"] <> ([] : list DiffID)
  /\ getRef ["d1"; "d2"; "d3"] [] (mkWorkerState 0 [])
     = (Return (Ok (mkRef "/d1/d2/d3")),
        mkWorkerState 1
          [CGetByBlob "d1" None (Some (mkRef "/d1"));
           CGetByBlob "d2" (Some (mkRef "/d1")) (Some (mkRef "/d1/d2"));
           CRefRelease (mkRef "/d1");
           CGetByBlob "d3" (Some (mkRef "/d1/d2")) (Some (mkRef "/d1/d2/d3"));
           CRefRelease (mkRef "/d1/d2")])
  /\ (length (slice_to ["d1"; "d2"; "d3"] (len ["d1"; "d2"; "d3"] - 1)) + 1
      = length ["d1"; "d2"; "d3"])%nat.
Proof.
  split; [discriminate|]. split; [vm_compute; reflexivity|].
  exact (proj1 (getRef_parent_before_child [] ["d1"; "d2"; "d3"]
                  (mkWorkerState 0 []) ltac:(discriminate))).
Defined.

(** * Further properties of the code *)

(** ** Commit, release and build steps *)

Lemma errors_Is_refl (e : error) : errors_Is e e = true.
Proof. destruct e; cbn; rewrite decide_True by reflexivity; reflexivity. Qed.

Lemma errors_Is_Wrapped (msg : string) (cause target : error) :
  errors_Is cause target = true -> errors_Is (Wrapped msg cause) target = true.
Proof.
  intros Hc. cbn. destruct (decide (Wrapped msg cause = target)); [reflexivity|exact Hc].
Qed.

Section CommitFurther.
Context {W : Type} `{!LayerStore W, !ImageStore W, !ImageCodec}.

Ltac unfold_service :=
  unfold CommitImage, exportContainerRw, rwTar_Close, rwTar_closer,
    NewReadCloserWrapper, layer_ReleaseAndLog, LogImageEvent, defer,
    layerStore_GetRWLayer, layerStore_ReleaseRWLayer, rwlayer_Mount,
    rwlayer_Unmount, rwlayer_TarStream, archive_Close, layerStore_Register,
    imageStore_Get, imageStore_Create, imageStore_SetBuiltLocally,
    imageStore_SetParent, set_rcClosed, get_rcClosed, call, bind, ret.

Ltac all_paths :=
  repeat (case_match; simplify_eq; cbn [fst snd world calls events rcClosed] in *).

Ltac as_trace :=
  first [ symmetry; apply app_nil_r
        | rewrite <- ?app_assoc; cbn [app]; reflexivity ].

(** CommitImage without a parent never asks the image store for an image and
    never sets a parent link, and registers the layer on the chain ID of the
    empty root filesystem; with a parent, the only image it asks for and the
    only parent it links is ParentImageID. *)
Theorem CommitImage_parent_use (ctx : Context) (c : CommitConfig) (s : State W) :
  exists tr,
    calls (CommitImage ctx c s).2 = calls s ++ tr
    /\ if decide (ParentImageID c = EmptyString)
       then imageGets tr = [] /\ parentLinks tr = []
            /\ registerParents tr ⊆ [RootFS_ChainID NewRootFS]
       else imageGets tr ⊆ [ParentImageID c]
            /\ (parentLinks tr).*2 ⊆ [ParentImageID c].
Proof.
  unfold_service.
  destruct (decide (ParentImageID c = EmptyString)) as [Hp|Hp]; all_paths.
  all: eexists; (split; [as_trace|]).
  all: cbn; repeat split; set_solver.
Qed.

(** The calls of a successful CommitImage, in full: the export of the
    read-write layer, the parent image when there is one, Register, Create,
    SetBuiltLocally and SetParent when there is a parent, all successful and
    on the ID returned, then the release of the new layer and the close of
    the export. *)
Theorem CommitImage_success_calls (ctx : Context) (c : CommitConfig) (s : State W) :
  match (CommitImage ctx c s).1 with
  | Err _ => True
  | Ok id =>
      exists (rw : RWLayer) (archive : Archive) (chain : ChainID) (l : Layer)
             (config : string) (ok1 ok2 : bool),
        calls (CommitImage ctx c s).2
        = calls s
          ++ [CGetRWLayer (ContainerID c) true;
              CMount rw (ContainerMountLabel c) true;
              CTarStream rw true]
          ++ (if decide (ParentImageID c = EmptyString) then []
              else [CImageGet (ParentImageID c) true])
          ++ [CRegister chain (Some l);
              CCreate config (Some id);
              CSetBuiltLocally id true]
          ++ (if decide (ParentImageID c = EmptyString) then []
              else [CSetParent id (ParentImageID c) true])
          ++ [CRelease l;
              CArchiveClose archive;
              CUnmount rw ok1;
              CReleaseRWLayer rw ok2]
        /\ events (CommitImage ctx c s).2 = events s ++ [createEvent id]
  end.
Proof.
  unfold_service.
  destruct (decide (ParentImageID c = EmptyString)) as [Hp|Hp]; all_paths.
  all: try exact I.
  all: do 7 eexists; (split; [as_trace|reflexivity]).
Qed.

(** CommitImage creates an image record only after Register gave it a layer,
    and marks as built locally and links to a parent only the record it
    created: a commit that fails before Create leaves the image store
    untouched. *)
Theorem CommitImage_record_needs_layer (ctx : Context) (c : CommitConfig)
    (s : State W) :
  exists tr,
    calls (CommitImage ctx c s).2 = calls s ++ tr
    /\ (length (createdIDs tr) <= length (registeredLayers tr))%nat
    /\ builtLocally tr ⊆ createdIDs tr
    /\ (parentLinks tr).*1 ⊆ createdIDs tr
    /\ (length (parentLinks tr) <= length (builtLocally tr))%nat.
Proof.
  unfold_service. all_paths.
  all: eexists; (split; [as_trace|]).
  all: cbn; repeat split; first [lia | set_solver].
Qed.

(** ReleaseLayer on a value that is not a layer.RWLayer returns an error and
    calls nothing; on a layer.RWLayer it calls ReleaseRWLayer once and then
    logs one line per layer the store reports as cleaned up, whether the
    release failed or not.  It logs no event. *)
Theorem ReleaseLayer_calls (rwlayer : ContainerRWLayer) (s : State W) :
  events (ReleaseLayer rwlayer s).2 = events s
  /\ match rwlayer with
     | ForeignRWLayer ty =>
         ReleaseLayer rwlayer s
         = (Some (ErrorString (String.append "unexpected RWLayer type: " ty)), s)
     | LayerRWLayer l =>
         calls (ReleaseLayer rwlayer s).2
         = calls s
           ++ CReleaseRWLayer l (is_nil (ReleaseRWLayer l (world s)).1.2)
              :: (CLogInfo <$> (md_ChainID <$> (ReleaseRWLayer l (world s)).1.1))
     end.
Proof.
  assert (Hlog : forall (md : list Metadata) (t : State W),
             calls (logCleanedUp md t).2
             = calls t ++ (CLogInfo <$> (md_ChainID <$> md))
             /\ events (logCleanedUp md t).2 = events t).
  { induction md as [|m md IH]; intros t.
    - cbn. rewrite app_nil_r. auto.
    - cbn. unfold bind, log_Infof. cbn.
      destruct (IH (mkState (world t) (calls t ++ [CLogInfo (md_ChainID m)])
                            (events t) (rcClosed t))) as [IHc IHe].
      rewrite IHc, IHe. cbn. rewrite <- app_assoc. auto. }
  destruct rwlayer as [l|ty]; [|split; reflexivity].
  unfold ReleaseLayer, layerStore_ReleaseRWLayer, layerStore_DriverName, call, bind, ret.
  destruct (ReleaseRWLayer l (world s)) as [[md err] w'] eqn:Hrel.
  cbn [fst snd].
  match goal with
  | |- context [logCleanedUp md ?t0] =>
      destruct (Hlog md t0) as [Hc He];
      destruct (logCleanedUp md t0) as [[] t]
  end.
  cbn in Hc, He.
  destruct err as [err|]; [|cbn; rewrite Hc, He, <- app_assoc; auto].
  destruct (negb (errors_Is err ErrMountDoesNotExist) && negb (errors_Is err ErrNotExist));
    cbn; rewrite Hc, He, <- app_assoc; auto.
Qed.

(** The error ReleaseLayer returns for a failed release keeps the identity of
    the store's error: whatever errors.Is finds in the store's error, it
    finds in the returned one; and the returned error is never one that
    errors.Is takes for ErrMountDoesNotExist or os.ErrNotExist. *)
Theorem ReleaseLayer_error_identity (l : RWLayer) (s : State W) (target : error) :
  match (ReleaseLayer (LayerRWLayer l) s).1, (ReleaseRWLayer l (world s)).1.2 with
  | Some e, Some err =>
      errors_Is e err = true
      /\ (if errors_Is err target then errors_Is e target = true else True)
      /\ errors_Is e ErrMountDoesNotExist = false
      /\ errors_Is e ErrNotExist = false
  | Some _, None => False
  | None, _ => True
  end.
Proof.
  assert (Hlog : forall (md : list Metadata) (t : State W),
             world (logCleanedUp md t).2 = world t).
  { induction md as [|m md IH]; intros t; [reflexivity|].
    cbn. unfold bind, log_Infof. cbn. rewrite IH. reflexivity. }
  unfold ReleaseLayer, layerStore_ReleaseRWLayer, layerStore_DriverName, call, bind, ret.
  destruct (ReleaseRWLayer l (world s)) as [[md err] w'] eqn:Hrel.
  cbn [fst snd].
  destruct (logCleanedUp md _) as [[] t].
  destruct err as [err|]; [|exact I].
  destruct (errors_Is err ErrMountDoesNotExist) eqn:H1;
    destruct (errors_Is err ErrNotExist) eqn:H2;
    cbn [negb andb fst snd]; try exact I.
  split; [apply errors_Is_Wrapped, errors_Is_refl|].
  split; [destruct (errors_Is err target) eqn:Ht; [apply errors_Is_Wrapped, Ht|exact I]|].
  cbn. rewrite H1, H2. auto.
Qed.

End CommitFurther.

Section BuildStepFurther.
Context {W : Type} `{!LayerStore W, !ImageStore W, !ImageCodec}.
Variable containers_Get : string -> option BuildContainer.

Ltac unfold_step :=
  unfold CommitBuildStep, CommitImage, exportContainerRw, rwTar_Close, rwTar_closer,
    NewReadCloserWrapper, layer_ReleaseAndLog, LogImageEvent, defer,
    layerStore_GetRWLayer, layerStore_ReleaseRWLayer, rwlayer_Mount,
    rwlayer_Unmount, rwlayer_TarStream, archive_Close, layerStore_Register,
    imageStore_Get, imageStore_Create, imageStore_SetBuiltLocally,
    imageStore_SetParent, set_rcClosed, get_rcClosed, call, bind, ret.

Ltac step_paths :=
  repeat (case_match; simplify_eq;
          cbn [fst snd world calls events rcClosed ParentImageID ContainerID
               ContainerMountLabel] in *).

(** CommitBuildStep on a container the container store does not have returns
    an error naming the container ID and touches nothing, also when the
    context is cancelled; on a container it has, with a cancelled context, it
    returns the context's error and touches nothing as well. *)
Theorem CommitBuildStep_fails_without_effect (ctx : Context) (c : CommitConfig)
    (s : State W) :
  match containers_Get (ContainerID c), ctx 0%nat with
  | None, _ =>
      CommitBuildStep containers_Get ctx c s
      = (Err (ErrorString (String.append "container not found: " (ContainerID c))), s)
  | Some _, Some err => CommitBuildStep containers_Get ctx c s = (Err err, s)
  | Some _, None => True
  end.
Proof.
  unfold CommitBuildStep, CommitImage.
  destruct (containers_Get (ContainerID c)) as [ctr|]; [|reflexivity].
  destruct (ctx 0%nat); [reflexivity|exact I].
Qed.

(** A build-step commit takes the mount label, the OS and the parent image
    from the container, not from the configuration it is given: it mounts
    the read-write layer with the container's mount label, asks the image
    store for no image but the container's and links no other parent (for a
    container without image it asks for none and links none), and the values
    the caller put in those three fields make no difference. *)
Theorem CommitBuildStep_uses_container_image (ctx : Context) (c : CommitConfig)
    (s : State W) :
  match containers_Get (ContainerID c) with
  | None => True
  | Some ctr =>
      exists tr,
        calls (CommitBuildStep containers_Get ctx c s).2 = calls s ++ tr
        /\ (forall label os parent : string,
               CommitBuildStep containers_Get ctx
                 (mkCommitConfig (Author c) (Comment c) (Config c)
                    (ContainerConfig c) (ContainerID c) label os parent) s
               = CommitBuildStep containers_Get ctx c s)
        /\ mountLabels tr ⊆ [bc_MountLabel ctr]
        /\ (if decide (bc_ImageID ctr = EmptyString)
            then imageGets tr = [] /\ parentLinks tr = []
            else imageGets tr ⊆ [bc_ImageID ctr]
                 /\ (parentLinks tr).*2 ⊆ [bc_ImageID ctr])
  end.
Proof.
  destruct (containers_Get (ContainerID c)) as [ctr|] eqn:Hget; [|exact I].
  assert (forall label os parent : string,
             CommitBuildStep containers_Get ctx
               (mkCommitConfig (Author c) (Comment c) (Config c)
                  (ContainerConfig c) (ContainerID c) label os parent) s
             = CommitBuildStep containers_Get ctx c s) as Hsame
    by reflexivity.
  enough (exists tr,
             calls (CommitBuildStep containers_Get ctx c s).2 = calls s ++ tr
             /\ mountLabels tr ⊆ [bc_MountLabel ctr]
             /\ (if decide (bc_ImageID ctr = EmptyString)
                 then imageGets tr = [] /\ parentLinks tr = []
                 else imageGets tr ⊆ [bc_ImageID ctr]
                      /\ (parentLinks tr).*2 ⊆ [bc_ImageID ctr]))
    as (tr & Htr & Hlabel & Himg)
    by (exists tr; auto).
  clear Hsame. unfold CommitBuildStep. rewrite Hget. clear Hget.
  unfold_step.
  cbn [ParentImageID ContainerID ContainerMountLabel].
  destruct (decide (bc_ImageID ctr = EmptyString)) as [Hp|Hp]; step_paths.
  all: eexists; (split; [first [ symmetry; apply app_nil_r
                               | rewrite <- ?app_assoc; cbn [app]; reflexivity ]|]).
  all: cbn; repeat split; set_solver.
Qed.

End BuildStepFurther.

(** ** Disk usage and transfer limits *)

Section DiskUsageFurther.
Context `{!ImageCodec}.

(** A cancellation that comes after the check of the last layer goes
    unnoticed: when the context is live at the first n observations, n the
    number of layers, ImageDiskUsage returns the full total and a nil
    error. *)
Theorem ImageDiskUsage_cancel_after_last_layer (st : Stores) (ctx : Context)
    (imageOrder : list (ImageID * Image)) (layerOrder : list (ChainID * Layer)) :
  imageOrder ≡ₚ map_to_list (imageStore_Map st) ->
  layerOrder ≡ₚ map_to_list (layerStore_Map st) ->
  (forall j, (j < length layerOrder)%nat -> ctx j = None) ->
  ImageDiskUsage_in ctx st imageOrder layerOrder 0%nat
  = ((wrap64 (referencedSize st), None), length layerOrder).
Proof.
  intros Himg Hlay Hlive.
  pose proof (getLayerRefs_in_dom st imageOrder Himg) as Hdom.
  unfold ImageDiskUsage_in.
  rewrite (diskUsageLoop_live st ctx _ _ Hdom 0 0%nat);
    [|rewrite length_fmap; exact Hlive|reflexivity].
  rewrite length_fmap, Z.add_0_l.
  do 3 f_equal. apply countedSize_perm. rewrite Hlay. reflexivity.
Qed.

(** With no layer in the layer store, ImageDiskUsage never looks at the
    context: it returns 0 and a nil error even when the context is already
    cancelled, whatever images there are. *)
Theorem ImageDiskUsage_no_layers (ctx : Context) (images : gmap ImageID Image)
    (children : ImageID -> list ImageID) (references : ImageID -> list string) :
  ImageDiskUsage ctx (mkStores images children references ∅) 0%nat
  = ((0, None), 0%nat).
Proof.
  unfold ImageDiskUsage, ImageDiskUsage_in. cbn [layerStore_Map].
  rewrite map_to_list_empty. reflexivity.
Qed.

End DiskUsageFurther.

Section TransferFurther.
Context {DM UM : Type} `{!TransferManager DM, !TransferManager UM}.

(** UpdateConfig with two non-zero values sets the bound of each manager
    that is there, the download manager first, and skips a manager that is
    nil: it never makes one, and makes no call for it. *)
Theorem UpdateConfig_applies_nonzero (i : Transfers DM UM)
    (maxDownloads maxUploads : Z) :
  maxDownloads <> 0 ->
  maxUploads <> 0 ->
  downloadManager (UpdateConfig maxDownloads maxUploads i).2
  = SetConcurrency maxDownloads <$> downloadManager i
  /\ uploadManager (UpdateConfig maxDownloads maxUploads i).2
     = SetConcurrency maxUploads <$> uploadManager i
  /\ xferCalls (UpdateConfig maxDownloads maxUploads i).2
     = xferCalls i
       ++ match downloadManager i with
          | Some _ => [DownloadSetConcurrency maxDownloads]
          | None => []
          end
       ++ match uploadManager i with
          | Some _ => [UploadSetConcurrency maxUploads]
          | None => []
          end.
Proof.
  intros Hd Hu. unfold UpdateConfig, bind.
  apply Z.eqb_neq in Hd, Hu.
  destruct i as [[dm|] [um|] cs]; cbn; rewrite ?Hd, ?Hu; cbn;
    rewrite <- ?app_assoc, ?app_nil_r; auto.
Qed.

End TransferFurther.

(** ** The worker: refs, platforms, remotes *)

Section WorkerFurther.
Context {W : Type} `{!CacheManager W}.

(** The refs a run of getRef on a non-empty list obtains, releases and
    passes as parents. *)
Lemma getRef_refs (opts : list string) (diffIDs : list DiffID) :
  diffIDs <> [] ->
  forall s : WorkerState W,
  exists tr : list CacheCall,
    cacheCalls (getRef diffIDs opts s).2 = cacheCalls s ++ tr
    /\ refsObtained tr
       = refsReleased tr
         ++ match (getRef diffIDs opts s).1 with
            | Return (Ok r) => [r]
            | _ => []
            end
    /\ parentsPassed tr = None :: (Some <$> refsReleased tr).
Proof.
  induction diffIDs as [|d l IH] using rev_ind; [congruence|].
  intros _ s. destruct l as [|d0 l0].
  - rewrite getRef_short by (unfold len; cbn [length app]; lia).
    unfold getByBlobLast. rewrite (index_last [] d).
    unfold bind, cache_GetByBlob, ret.
    destruct (GetByBlob d None opts (cacheWorld s)) as [r w'].
    cbn. eexists. split; [reflexivity|].
    destruct r; cbn; auto.
  - rewrite getRef_long by (unfold len; rewrite length_app; cbn [length]; lia).
    rewrite slice_to_last. unfold getByBlobLast. rewrite index_last.
    unfold bind, cache_GetByBlob, ref_Release, ret.
    destruct (IH ltac:(discriminate) s) as (tr & Htr & Hobt & Hpar).
    pose proof (getRef_trace opts (d0 :: l0) ltac:(discriminate) s)
      as (tr' & k & _ & _ & _ & Hres).
    destruct (getRef (d0 :: l0) opts s) as [p s1]. cbn [fst snd] in *.
    destruct p as [[parent|err]|msg]; [| |contradiction].
    + destruct (GetByBlob d (Some parent) opts (cacheWorld s1)) as [r w'].
      cbn [cacheWorld cacheCalls].
      destruct (RefRelease parent w') as [e w''].
      cbn [fst snd cacheCalls].
      eexists. split.
      { rewrite Htr, <- !app_assoc. reflexivity. }
      unfold refsObtained, refsReleased, parentsPassed in *.
      rewrite !omap_app, Hobt, Hpar. cbn.
      rewrite fmap_app, <- !app_assoc. cbn.
      rewrite !app_nil_r. split; [|reflexivity].
      destruct r; cbn; rewrite ?app_nil_r; reflexivity.
    + exists tr. split; [exact Htr|]. split; [exact Hobt|exact Hpar].
Qed.

(** getRef on an empty list of diff IDs panics (index out of range) before
    it calls the cache manager. *)
Theorem getRef_empty_panics (opts : list string) (s : WorkerState W) :
  getRef [] opts s = (Panic "index out of range", s).
Proof.
  rewrite getRef_short by (unfold len; cbn; lia). reflexivity.
Qed.

(** getRef holds on to nothing but the ref it returns: on a non-empty list,
    the refs it obtained from GetByBlob are the refs it released, in that
    order, followed by the ref returned when there is one (none when it
    fails); and the parents it passed to GetByBlob are nil for the first
    position and then each ref it released, so every position is resolved on
    top of the ref of the position before. *)
Theorem getRef_releases_intermediate_refs (opts : list string)
    (diffIDs : list DiffID) (s : WorkerState W) :
  diffIDs <> [] ->
  exists tr : list CacheCall,
    cacheCalls (getRef diffIDs opts s).2 = cacheCalls s ++ tr
    /\ refsObtained tr
       = refsReleased tr
         ++ match (getRef diffIDs opts s).1 with
            | Return (Ok r) => [r]
            | _ => []
            end
    /\ parentsPassed tr = None :: (Some <$> refsReleased tr).
Proof. intros Hne. apply getRef_refs, Hne. Qed.

End WorkerFurther.

Section PlatformFurther.
Context `{!PlatformEnv}.

Lemma mergePlatforms_copy (defined : list Platform) :
  forall result matchers : list Platform,
    fold_left (fun (acc : list Platform * list Platform) p =>
                 (acc.1 ++ [p], acc.2 ++ [p]))
              defined (result, matchers)
    = (result ++ defined, matchers ++ defined).
Proof.
  induction defined as [|p defined IH]; intros result matchers; cbn.
  - rewrite !app_nil_r. reflexivity.
  - rewrite IH, <- !app_assoc. reflexivity.
Qed.

Lemma mergePlatforms_append (matchers supported : list Platform) :
  forall result : list Platform,
    fold_left (fun result p =>
                 let exists_ := existsb (fun m => Only_Match m p) matchers in
                 if negb exists_ then result ++ [p] else result)
              supported result
    = result ++ unmatched matchers supported.
Proof.
  unfold unmatched.
  induction supported as [|p supported IH]; intros result; cbn [fold_left].
  - rewrite filter_nil, app_nil_r. reflexivity.
  - rewrite IH, filter_cons.
    destruct (existsb (fun m => Only_Match m p) matchers) eqn:Hex; cbn [negb].
    + rewrite decide_False by discriminate. reflexivity.
    + rewrite decide_True by reflexivity. rewrite <- app_assoc. reflexivity.
Qed.

Lemma mergePlatforms_unmatched (defined supported : list Platform) :
  mergePlatforms defined supported = defined ++ unmatched defined supported.
Proof.
  unfold mergePlatforms. rewrite (mergePlatforms_copy defined [] []).
  cbn [app]. apply mergePlatforms_append.
Qed.

(** mergePlatforms returns the defined platforms, in their order, followed
    by the supported platforms that no defined platform matches, in their
    order: it drops no defined platform and adds nothing a defined one
    covers. *)
Theorem mergePlatforms_defined_then_unmatched (defined supported : list Platform) :
  mergePlatforms defined supported
  = defined
    ++ filter (fun p => existsb (fun m => Only_Match m p) defined = false) supported.
Proof. apply mergePlatforms_unmatched. Qed.


(** Platforms never returns an empty list: it returns the default platform
    when the worker has none, and the worker's list otherwise; asked with
    noCache false it leaves the worker's list as it is, and asked with
    noCache true it keeps the worker's platforms as a prefix of the list. *)
Theorem Platforms_never_empty (noCache : bool) (platforms : list Platform) :
  (Platforms noCache platforms).1 <> []
  /\ (Platforms noCache platforms).1
     = (if decide ((Platforms noCache platforms).2 = [])
        then [DefaultSpec] else (Platforms noCache platforms).2)
  /\ (Platforms false platforms).2 = platforms
  /\ platforms `prefix_of` (Platforms noCache platforms).2.
Proof.
  assert (forall l : list Platform, (len l =? 0) = true <-> l = []) as Hlen.
  { intros l. unfold len. rewrite Z.eqb_eq. destruct l; cbn; split; try lia;
      congruence. }
  assert ((Platforms false platforms).2 = platforms) as Hfalse.
  { unfold Platforms. destruct (len platforms =? 0); reflexivity. }
  assert (platforms `prefix_of` (Platforms noCache platforms).2) as Hpre.
  { destruct noCache; [|rewrite Hfalse; reflexivity].
    unfold Platforms. rewrite mergePlatforms_unmatched.
    destruct (len _ =? 0); cbn [snd]; apply prefix_app_r; reflexivity. }
  assert ((Platforms noCache platforms).1
          = (if decide ((Platforms noCache platforms).2 = [])
             then [DefaultSpec] else (Platforms noCache platforms).2)) as Hres.
  { unfold Platforms.
    destruct (len (if noCache
                   then mergePlatforms platforms (SupportedPlatforms noCache)
                   else platforms) =? 0) eqn:Hl; cbn [fst snd].
    - apply Hlen in Hl. rewrite decide_True by exact Hl. reflexivity.
    - rewrite decide_False; [reflexivity|].
      intros Heq. apply Hlen in Heq. congruence. }
  split; [|auto].
  rewrite Hres. destruct (decide _) as [|Hne]; [discriminate|exact Hne].
Qed.

End PlatformFurther.

Section LayersFurther.
Context `{!DigestLib}.

(** The loop that fills the slice in place computes the layers one by one
    and stops at the first descriptor that has none. *)
Lemma getLayers_loop_layersOf (descs : list Descriptor) :
  forall (i : nat) (layers : list RootfsLayer),
    length layers = (i + length descs)%nat ->
    getLayers_loop i descs layers
    = match layersOf descs with
      | Ok new => Ok (take i layers ++ new)
      | Err err => Err err
      end.
Proof.
  induction descs as [|desc rest IH]; intros i layers Hlen; cbn [getLayers_loop layersOf].
  - cbn in Hlen. rewrite app_nil_r, take_ge by lia. reflexivity.
  - unfold layerOf.
    destruct (decide (annotation (desc_Annotations desc) "containerd.io/uncompressed"
                      = EmptyString)); [reflexivity|].
    destruct (digest_Parse _) as [diffID|err]; [|reflexivity].
    rewrite IH by (rewrite length_insert; cbn in Hlen; lia).
    destruct (layersOf rest) as [new|err]; [|reflexivity].
    f_equal.
    rewrite (take_S_r _ i (mkRootfsLayer (mkDescriptor MediaTypeImageLayer diffID 0 ∅)
                             (mkDescriptor (desc_MediaType desc) (desc_Digest desc)
                                           (desc_Size desc) ∅)))
      by (apply list_lookup_insert_eq; cbn in Hlen; lia).
    rewrite take_insert_ge by lia. rewrite <- app_assoc. reflexivity.
Qed.

Lemma getLayers_layersOf (descs : list Descriptor) :
  getLayers descs = layersOf descs.
Proof.
  unfold getLayers.
  rewrite getLayers_loop_layersOf by (rewrite length_replicate; reflexivity).
  destruct (layersOf descs); reflexivity.
Qed.

Lemma layersOf_ok (descs : list Descriptor) (layers : list RootfsLayer) :
  layersOf descs = Ok layers
  <-> Forall2 (fun desc l => layerOf desc = Ok l) descs layers.
Proof.
  revert layers. induction descs as [|desc rest IH]; intros layers; cbn [layersOf].
  - split.
    + intros [= <-]. constructor.
    + intros Hall. inversion Hall. reflexivity.
  - split.
    + destruct (layerOf desc) as [l|err] eqn:Hl; [|discriminate].
      destruct (layersOf rest) as [ls|err] eqn:Hls; [|discriminate].
      intros [= <-]. constructor; [exact Hl|]. apply IH. reflexivity.
    + intros Hall. inversion Hall as [|? l ? ls Hl Hrest]; subst.
      rewrite Hl. apply IH in Hrest. rewrite Hrest. reflexivity.
Qed.

Lemma layersOf_err (descs : list Descriptor) (err : error) :
  layersOf descs = Err err
  <-> exists (pre : list Descriptor) (desc : Descriptor) (post : list Descriptor),
        descs = pre ++ desc :: post
        /\ Forall (fun d => is_ok (layerOf d) = true) pre
        /\ layerOf desc = Err err.
Proof.
  induction descs as [|desc rest IH]; cbn [layersOf].
  - split; [discriminate|].
    intros (pre & d & post & Heq & _). destruct pre; discriminate.
  - split.
    + destruct (layerOf desc) as [l|e] eqn:Hl.
      * destruct (layersOf rest) as [ls|e] eqn:Hls; [discriminate|].
        intros [= ->].
        destruct (proj1 IH eq_refl) as (pre & d & post & -> & Hpre & Hd).
        exists (desc :: pre), d, post. repeat split; [|exact Hd].
        constructor; [rewrite Hl; reflexivity|exact Hpre].
      * intros [= ->]. exists [], desc, rest. repeat split; [constructor|exact Hl].
    + intros (pre & d & post & Heq & Hpre & Hd).
      destruct pre as [|p pre]; cbn in Heq; injection Heq as -> ->.
      * rewrite Hd. reflexivity.
      * inversion Hpre as [|? ? Hp Hpre']; subst.
        destruct (layerOf p) as [l|e]; [|discriminate].
        assert (layersOf (pre ++ d :: post) = Err err) as ->
          by (apply IH; eauto 6).
        reflexivity.
Qed.

(** getLayers succeeds exactly when every descriptor carries a non-empty
    uncompressed digest that digest.Parse accepts, and then returns one layer
    per descriptor, in order: the diff is an OCI layer with that digest, the
    blob keeps media type, digest and size of the descriptor and drops its
    annotations. *)
Theorem getLayers_ok_iff (descs : list Descriptor) (layers : list RootfsLayer) :
  getLayers descs = Ok layers
  <-> Forall2
        (fun desc l =>
           annotation (desc_Annotations desc) "containerd.io/uncompressed" <> EmptyString
           /\ exists diffID,
                digest_Parse (annotation (desc_Annotations desc)
                                         "containerd.io/uncompressed") = Ok diffID
                /\ l = mkRootfsLayer
                         (mkDescriptor MediaTypeImageLayer diffID 0 ∅)
                         (mkDescriptor (desc_MediaType desc) (desc_Digest desc)
                                       (desc_Size desc) ∅))
        descs layers.
Proof.
  rewrite getLayers_layersOf, layersOf_ok.
  split; intros Hall; eapply Forall2_impl; try exact Hall; cbn; intros desc l;
    unfold layerOf.
  - destruct (decide _) as [|Hne]; [discriminate|].
    destruct (digest_Parse _) as [diffID|err]; [|discriminate].
    intros [= <-]. eauto.
  - intros (Hne & diffID & Hparse & ->).
    rewrite decide_False by exact Hne. rewrite Hparse. reflexivity.
Qed.

(** getLayers fails with the error of the first descriptor that has no
    layer, and the descriptors after it are not looked at; a descriptor
    without the uncompressed-digest annotation has none, and its error names
    the digest of the descriptor. *)
Theorem getLayers_first_error (descs : list Descriptor) (err : error) :
  (getLayers descs = Err err
   <-> exists (pre : list Descriptor) (desc : Descriptor) (post : list Descriptor),
         descs = pre ++ desc :: post
         /\ Forall (fun d => is_ok (layerOf d) = true) pre
         /\ layerOf desc = Err err)
  /\ (forall desc : Descriptor,
         desc_Annotations desc !! "containerd.io/uncompressed" = None ->
         layerOf desc
         = Err (ErrorString (String.append (desc_Digest desc)
                                           " missing uncompressed digest"))).
Proof.
  split.
  - rewrite getLayers_layersOf. apply layersOf_err.
  - intros desc Hnone. unfold layerOf, annotation. rewrite Hnone. reflexivity.
Qed.

End LayersFurther.

Lemma fillDescriptors_map (diffIDs : list DiffID) :
  forall (i : nat) (descriptors : list Descriptor),
    length descriptors = (i + length diffIDs)%nat ->
    fillDescriptors i diffIDs descriptors
    = take i descriptors ++ (remoteDescriptor <$> diffIDs).
Proof.
  induction diffIDs as [|dgst rest IH]; intros i descriptors Hlen;
    cbn [fillDescriptors fmap list_fmap].
  - cbn in Hlen. rewrite app_nil_r, take_ge by lia. reflexivity.
  - rewrite IH by (rewrite length_insert; cbn in Hlen; lia).
    rewrite (take_S_r _ i (remoteDescriptor dgst))
      by (apply list_lookup_insert_eq; cbn in Hlen; lia).
    rewrite take_insert_ge by lia. rewrite <- app_assoc. reflexivity.
Qed.

Section RemotesFurther.
Context {W : Type} `{!LayerAccess W}.

Lemma GetRemotes_descriptors_aux (r : ImmutableRef) (createIfNeeded all : bool)
    (s : AccessState W) :
  match (GetRemotes (Some r) createIfNeeded all s).1 with
  | Err _ => True
  | Ok remotes =>
      exists diffIDs : list DiffID,
        remotes = [mkRemote (remoteDescriptor <$> diffIDs) emptyProvider]
  end.
Proof.
  unfold GetRemotes, access, bind, ret.
  destruct createIfNeeded; cbn [negb].
  - destruct (ref_Finalize r (accessWorld s)) as [[e|] w1]; cbn; [exact I|].
    destruct (ref_Extract r w1) as [[e|] w2]; cbn; [exact I|].
    destruct (EnsureLayer (ref_ID r) w2) as [[ids|e] w3]; cbn; [|exact I].
    exists ids.
    rewrite fillDescriptors_map by (rewrite length_replicate; reflexivity).
    reflexivity.
  - destruct (GetDiffIDs (ref_ID r) (accessWorld s)) as [[ids|e] w1]; cbn;
      [|exact I].
    exists ids.
    rewrite fillDescriptors_map by (rewrite length_replicate; reflexivity).
    reflexivity.
Qed.

(** GetRemotes on a nil ref returns no remote and calls nothing.  On a ref,
    with createIfNeeded false it only asks GetDiffIDs; with createIfNeeded
    true it finalizes, extracts only after a successful Finalize, and asks
    EnsureLayer only after a successful Extract.  The flag "all" makes no
    difference. *)
Theorem GetRemotes_calls (ref : option ImmutableRef) (createIfNeeded all : bool)
    (s : AccessState W) :
  GetRemotes ref createIfNeeded all s = GetRemotes ref createIfNeeded (negb all) s
  /\ match ref with
     | None => GetRemotes ref createIfNeeded all s = (Ok [], s)
     | Some r =>
         exists tr,
           accessCalls (GetRemotes ref createIfNeeded all s).2 = accessCalls s ++ tr
           /\ if createIfNeeded
              then tr = [AFinalize r false]
                   \/ tr = [AFinalize r true; AExtract r false]
                   \/ exists ok, tr = [AFinalize r true; AExtract r true;
                                       AEnsureLayer (ref_ID r) ok]
              else exists ok, tr = [AGetDiffIDs (ref_ID r) ok]
     end.
Proof.
  split; [reflexivity|].
  destruct ref as [r|]; [|reflexivity].
  unfold GetRemotes, access, bind, ret.
  destruct createIfNeeded; cbn [negb].
  - destruct (ref_Finalize r (accessWorld s)) as [[e|] w1]; cbn.
    + eexists. split; [reflexivity|]. auto.
    + destruct (ref_Extract r w1) as [[e|] w2]; cbn.
      * eexists. split; [rewrite <- app_assoc; reflexivity|]. auto.
      * destruct (EnsureLayer (ref_ID r) w2) as [[ids|e] w3]; cbn;
          (eexists; split; [rewrite <- !app_assoc; reflexivity|]); eauto.
  - destruct (GetDiffIDs (ref_ID r) (accessWorld s)) as [[ids|e] w1]; cbn;
      (eexists; split; [reflexivity|]); eauto.
Qed.

(** What GetRemotes returns for a ref: a single remote with the empty
    provider and one descriptor per diff ID, in order, each a Docker schema 2
    layer with the diff ID as digest, size -1 and no annotation; the diff
    IDs are those GetDiffIDs gave, or EnsureLayer when createIfNeeded. *)
Theorem GetRemotes_descriptors (r : ImmutableRef) (createIfNeeded all : bool)
    (s : AccessState W) :
  match (GetRemotes (Some r) createIfNeeded all s).1 with
  | Err _ => True
  | Ok remotes =>
      exists (diffIDs : list DiffID) (w : W),
        remotes
        = [mkRemote ((fun dgst => mkDescriptor MediaTypeDockerSchema2Layer dgst (-1) ∅)
                       <$> diffIDs)
                    emptyProvider]
        /\ (if createIfNeeded then EnsureLayer (ref_ID r) w
            else GetDiffIDs (ref_ID r) w).1 = Ok diffIDs
  end.
Proof.
  unfold GetRemotes, access, bind, ret.
  destruct createIfNeeded; cbn [negb].
  - destruct (ref_Finalize r (accessWorld s)) as [[e|] w1]; cbn; [exact I|].
    destruct (ref_Extract r w1) as [[e|] w2]; cbn; [exact I|].
    destruct (EnsureLayer (ref_ID r) w2) as [[ids|e] w3] eqn:He; cbn; [|exact I].
    exists ids, w2. rewrite He. split; [|reflexivity].
    rewrite fillDescriptors_map by (rewrite length_replicate; reflexivity).
    reflexivity.
  - destruct (GetDiffIDs (ref_ID r) (accessWorld s)) as [[ids|e] w1] eqn:He; cbn;
      [|exact I].
    exists ids, (accessWorld s). rewrite He. split; [|reflexivity].
    rewrite fillDescriptors_map by (rewrite length_replicate; reflexivity).
    reflexivity.
Qed.

(** The remotes GetRemotes makes cannot be read back by getLayers: their
    descriptors carry no uncompressed digest, so for every remote returned
    that has a layer, getLayers fails on the first descriptor with the
    message naming its digest. *)
Theorem getLayers_rejects_GetRemotes `{!DigestLib} (ref : option ImmutableRef)
    (createIfNeeded all : bool) (s : AccessState W) :
  match (GetRemotes ref createIfNeeded all s).1 with
  | Err _ => True
  | Ok remotes =>
      Forall (fun remote =>
                match Descriptors remote with
                | [] => getLayers (Descriptors remote) = Ok []
                | desc :: _ =>
                    getLayers (Descriptors remote)
                    = Err (ErrorString (String.append (desc_Digest desc)
                                          " missing uncompressed digest"))
                end) remotes
  end.
Proof.
  destruct ref as [r|]; [|cbn; constructor].
  pose proof (GetRemotes_descriptors_aux r createIfNeeded all s) as Hd.
  destruct (GetRemotes (Some r) createIfNeeded all s).1 as [remotes|]; [|exact I].
  destruct Hd as (diffIDs & ->).
  constructor; [|constructor]. cbn [Descriptors].
  destruct diffIDs as [|d rest]; [reflexivity|].
  rewrite getLayers_layersOf. reflexivity.
Qed.

End RemotesFurther.

Lemma index_in_range {A} (l : list A) (i : Z) :
  0 <= i < len l -> exists x, index l i = Some x.
Proof.
  intros Hi. unfold index, len in *.
  destruct (Z.ltb_spec i 0) as [|_]; [lia|].
  apply lookup_lt_is_Some_2. lia.
Qed.

Section FromRemoteFurther.
Context {W : Type} `{!CacheManager W, !RemoteEnv W, !DigestLib}.

Lemma releaseRefs_calls (deferred : list ImmutableRef) :
  forall s : RemoteState W,
    rs_log (releaseRefs deferred s).2 = rs_log s
    /\ cacheCalls (rs_worker (releaseRefs deferred s).2)
       = cacheCalls (rs_worker s) ++ (CRefRelease <$> deferred).
Proof.
  induction deferred as [|r rest IH]; intros s; cbn [releaseRefs].
  - cbn. rewrite app_nil_r. auto.
  - unfold bind, onWorker, ref_Release.
    destruct (RefRelease r (cacheWorld (rs_worker s))) as [e w'].
    match goal with
    | |- context [releaseRefs rest ?t] => destruct (IH t) as [IHl IHc]
    end.
    rewrite IHl, IHc. cbn. rewrite <- app_assoc. auto.
Qed.

Lemma deleteBlobs_calls (rootfs : list RootfsLayer) :
  forall s : RemoteState W,
    rs_log (deleteBlobs rootfs s).2
    = rs_log s ++ (RContentDelete <$> ((fun l => desc_Digest (rl_Blob l)) <$> rootfs))
    /\ cacheCalls (rs_worker (deleteBlobs rootfs s).2) = cacheCalls (rs_worker s).
Proof.
  induction rootfs as [|l rest IH]; intros s; cbn [deleteBlobs].
  - cbn. rewrite app_nil_r. auto.
  - unfold bind, onRemote.
    destruct (ContentStore_Delete _ (cacheWorld (rs_worker s))) as [e w'].
    match goal with
    | |- context [deleteBlobs rest ?t] => destruct (IH t) as [IHl IHc]
    end.
    rewrite IHl, IHc. cbn. rewrite <- app_assoc. auto.
Qed.

(** The loop of FromRemote over indices within range: it makes no call on
    the download manager or the content store, never panics, and the refs
    it obtained are those it released, those whose release it deferred and
    the one it returns. *)
Lemma fromRemoteLoop_refs (remote : Remote) (diffIDs : list DiffID) (todo : list Z) :
  (forall i, i ∈ todo -> 0 <= i < len diffIDs /\ i < len (Descriptors remote)) ->
  forall (deferred : list ImmutableRef) (s : RemoteState W),
  exists (tr : list CacheCall) (newly : list ImmutableRef),
    cacheCalls (rs_worker (fromRemoteLoop remote diffIDs todo deferred s).2)
    = cacheCalls (rs_worker s) ++ tr
    /\ rs_log (fromRemoteLoop remote diffIDs todo deferred s).2 = rs_log s
    /\ (fromRemoteLoop remote diffIDs todo deferred s).1.2 = newly ++ deferred
    /\ refsObtained tr
       ≡ₚ refsReleased tr ++ newly
          ++ match (fromRemoteLoop remote diffIDs todo deferred s).1.1 with
             | Return (Ok r) => [r]
             | _ => []
             end
    /\ match (fromRemoteLoop remote diffIDs todo deferred s).1.1 with
       | Panic _ => False
       | _ => True
       end.
Proof.
  induction todo as [|i rest IH]; intros Hrange deferred s; cbn [fromRemoteLoop].
  - exists [], []. cbn. rewrite app_nil_r. repeat split; reflexivity.
  - destruct (Hrange i ltac:(left)) as [Hi Hd].
    destruct (index_in_range (Descriptors remote) i ltac:(lia)) as [desc Hdesc].
    unfold bind, clock, onWorker, ret. rewrite Hdesc.
    destruct (match desc_Annotations desc !! labelCreatedAt with
              | Some tmstr => time_UnmarshalText tmstr
              | None => Ok (time_Now (cacheWorld (rs_worker s)))
              end) as [tm|err].
    2:{ exists [], []. cbn. rewrite app_nil_r. repeat split; reflexivity. }
    set (opts := [WithDescription _; WithCreationTime tm]).
    assert (slice_to diffIDs (i + 1) <> []) as Hne.
    { unfold slice_to, len in *. destruct diffIDs; [cbn in Hi; lia|].
      replace (Z.to_nat (i + 1)) with (S (Z.to_nat i)) by lia. discriminate. }
    destruct (getRef_refs opts _ Hne (rs_worker s)) as (trg & Htrg & Hobt & _).
    destruct (getRef_trace opts _ Hne (rs_worker s)) as (? & ? & _ & _ & _ & Hres).
    destruct (getRef (slice_to diffIDs (i + 1)) opts (rs_worker s)) as [p ws].
    cbn [fst snd] in *.
    destruct p as [[ref|err]|msg]; [| |contradiction].
    + destruct (i =? len (Descriptors remote) - 1).
      * exists trg, []. cbn. rewrite Hobt. repeat split; auto.
      * destruct (IH ltac:(intros j Hj; apply Hrange; right; exact Hj)
                    (ref :: deferred) (mkRemoteState ws (rs_log s)))
          as (tr & newly & Htr & Hlog & Hdef & Hperm & Hnp).
        exists (trg ++ tr), (newly ++ [ref]).
        cbn [rs_worker rs_log] in *.
        rewrite Htr, Htrg, Hlog, Hdef, <- !app_assoc.
        repeat split; auto.
        unfold refsObtained, refsReleased in *.
        rewrite !omap_app, Hobt, Hperm.
        solve_Permutation.
    + exists trg, []. cbn. rewrite Hobt, !app_nil_r. repeat split; auto.
Qed.

Lemma getLayers_blob_digests (descs : list Descriptor) (rootfs : list RootfsLayer) :
  getLayers descs = Ok rootfs ->
  (fun l => desc_Digest (rl_Blob l)) <$> rootfs = desc_Digest <$> descs.
Proof.
  rewrite getLayers_layersOf, layersOf_ok.
  induction 1 as [|desc l descs rootfs Hl _ IH]; [reflexivity|].
  cbn. rewrite IH. f_equal.
  unfold layerOf in Hl. destruct (decide _); [discriminate|].
  destruct (digest_Parse _); [|discriminate].
  injection Hl as <-. reflexivity.
Qed.

Lemma getLayers_length (descs : list Descriptor) (rootfs : list RootfsLayer) :
  getLayers descs = Ok rootfs -> length rootfs = length descs.
Proof.
  rewrite getLayers_layersOf, layersOf_ok. intros Hall.
  symmetry. eapply Forall2_length, Hall.
Qed.

(** A run of FromRemote after getLayers succeeded and the download gave as
    many diff IDs as there are layers: the part between the download and the
    deferred calls. *)
Lemma fromRemote_body (remote : Remote) (rootfs : list RootfsLayer)
    (rootFS : RootFS) (s : RemoteState W) :
  getLayers (Descriptors remote) = Ok rootfs ->
  length (DiffIDs rootFS) = length rootfs ->
  exists (tr : list CacheCall) (newly : list ImmutableRef),
    cacheCalls (rs_worker (fromRemoteLoop remote (DiffIDs rootFS)
                             (seqZ 0 (len (DiffIDs rootFS))) [] s).2)
    = cacheCalls (rs_worker s) ++ tr
    /\ rs_log (fromRemoteLoop remote (DiffIDs rootFS)
                 (seqZ 0 (len (DiffIDs rootFS))) [] s).2 = rs_log s
    /\ (fromRemoteLoop remote (DiffIDs rootFS)
          (seqZ 0 (len (DiffIDs rootFS))) [] s).1.2 = newly
    /\ refsObtained tr
       ≡ₚ refsReleased tr ++ newly
          ++ match (fromRemoteLoop remote (DiffIDs rootFS)
                      (seqZ 0 (len (DiffIDs rootFS))) [] s).1.1 with
             | Return (Ok r) => [r]
             | _ => []
             end
    /\ match (fromRemoteLoop remote (DiffIDs rootFS)
                (seqZ 0 (len (DiffIDs rootFS))) [] s).1.1 with
       | Panic _ => False
       | _ => True
       end.
Proof.
  intros Hget Hlen.
  pose proof (getLayers_length _ _ Hget) as Hl.
  destruct (fromRemoteLoop_refs remote (DiffIDs rootFS)
              (seqZ 0 (len (DiffIDs rootFS)))) with (deferred := @nil ImmutableRef)
                                                    (s := s)
    as (tr & newly & Htr & Hlog & Hdef & Hperm & Hnp).
  { intros i Hi. apply elem_of_seqZ in Hi. unfold len in *. lia. }
  exists tr, newly. rewrite app_nil_r in Hdef. auto.
Qed.

(** FromRemote with descriptors getLayers rejects returns that error and
    calls nothing.  Otherwise it downloads once, calls the release function
    of the download when the download succeeded, and last deletes the blob
    of every descriptor from the content store, once each and in order: on
    every path, whether a ref is returned or not. *)
Theorem FromRemote_cleans_up (remote : Remote) (s : RemoteState W) :
  match getLayers (Descriptors remote) with
  | Err err => FromRemote remote s = (Return (Err err), s)
  | Ok rootfs =>
      exists (layers : list LayerDescriptor) (ok : bool),
        layers = (fun l => mkLayerDescriptor (rl_Blob l) (desc_Digest (rl_Diff l))
                                             (Provider remote)) <$> rootfs
        /\ ok = is_ok (Download layers (cacheWorld (rs_worker s))).1
        /\ rs_log (FromRemote remote s).2
           = rs_log s
             ++ [RDownload layers ok]
             ++ (if ok then [RDownloadRelease] else [])
             ++ (RContentDelete <$> (desc_Digest <$> Descriptors remote))
  end.
Proof.
  unfold FromRemote.
  destruct (getLayers (Descriptors remote)) as [rootfs|err] eqn:Hget; [|reflexivity].
  eexists _, _. split; [reflexivity|]. split; [reflexivity|].
  rewrite <- (getLayers_blob_digests _ _ Hget).
  unfold bind, onRemote, ret.
  destruct (Download _ (cacheWorld (rs_worker s))) as [[rootFS|err] w'].
  - cbn [is_ok fst snd].
    destruct (len (DiffIDs rootFS) =? len _) eqn:Hlen; cbn [negb].
    + apply Z.eqb_eq in Hlen. unfold len in Hlen. rewrite length_fmap in Hlen.
      match goal with
      | |- context [fromRemoteLoop remote (DiffIDs rootFS) ?todo [] ?t] =>
          destruct (fromRemote_body remote rootfs rootFS t Hget ltac:(lia))
            as (tr & newly & Htr & Hlog & Hdef & _);
          destruct (fromRemoteLoop remote (DiffIDs rootFS) todo [] t) as [[out def] t1]
      end.
      cbn [fst snd] in *.
      destruct (releaseRefs_calls def t1) as [Hrl _].
      destruct (releaseRefs def t1) as [[] t2]. cbn [fst snd] in *.
      match goal with
      | |- context [deleteBlobs rootfs ?t] =>
          destruct (deleteBlobs_calls rootfs t) as [Hdl _];
          destruct (deleteBlobs rootfs t) as [[] t3]
      end.
      cbn [fst snd rs_log rs_worker cacheWorld] in *.
      rewrite Hdl, Hrl, Hlog. cbn. rewrite <- !app_assoc. reflexivity.
    + match goal with
      | |- context [deleteBlobs rootfs ?t] =>
          destruct (deleteBlobs_calls rootfs t) as [Hdl _];
          destruct (deleteBlobs rootfs t) as [[] t3]
      end.
      cbn [fst snd rs_log rs_worker cacheWorld] in *.
      rewrite Hdl. cbn. rewrite <- !app_assoc. reflexivity.
  - cbn [is_ok fst snd].
    match goal with
    | |- context [deleteBlobs rootfs ?t] =>
        destruct (deleteBlobs_calls rootfs t) as [Hdl _];
        destruct (deleteBlobs rootfs t) as [[] t3]
    end.
    cbn [fst snd rs_log rs_worker cacheWorld] in *.
    rewrite Hdl. cbn. rewrite <- !app_assoc. reflexivity.
Qed.

(** FromRemote holds on to no ref but the one it returns, and never panics:
    the refs obtained from GetByBlob over the whole run are, up to order,
    the refs released (inside getRef or by the deferred releases) and the
    ref returned; when FromRemote fails, every ref obtained has been
    released. *)
Theorem FromRemote_ref_balance (remote : Remote) (s : RemoteState W) :
  exists tr : list CacheCall,
    cacheCalls (rs_worker (FromRemote remote s).2) = cacheCalls (rs_worker s) ++ tr
    /\ refsObtained tr
       ≡ₚ refsReleased tr
          ++ match (FromRemote remote s).1 with
             | Return (Ok r) => [r]
             | _ => []
             end
    /\ match (FromRemote remote s).1 with
       | Panic _ => False
       | _ => True
       end.
Proof.
  unfold FromRemote.
  destruct (getLayers (Descriptors remote)) as [rootfs|err] eqn:Hget.
  2:{ exists []. cbn. rewrite app_nil_r. auto. }
  unfold bind, onRemote, ret.
  destruct (Download _ (cacheWorld (rs_worker s))) as [[rootFS|err] w'].
  - destruct (len (DiffIDs rootFS) =? len _) eqn:Hlen; cbn [negb].
    + apply Z.eqb_eq in Hlen. unfold len in Hlen. rewrite length_fmap in Hlen.
      match goal with
      | |- context [fromRemoteLoop remote (DiffIDs rootFS) ?todo [] ?t] =>
          destruct (fromRemote_body remote rootfs rootFS t Hget ltac:(lia))
            as (tr & newly & Htr & Hlog & Hdef & Hperm & Hnp);
          destruct (fromRemoteLoop remote (DiffIDs rootFS) todo [] t) as [[out def] t1]
      end.
      cbn [fst snd] in *. subst def.
      destruct (releaseRefs_calls newly t1) as [_ Hrc].
      destruct (releaseRefs newly t1) as [[] t2]. cbn [fst snd] in *.
      match goal with
      | |- context [deleteBlobs rootfs ?t] =>
          destruct (deleteBlobs_calls rootfs t) as [_ Hdc];
          destruct (deleteBlobs rootfs t) as [[] t3]
      end.
      cbn [fst snd rs_log rs_worker cacheWorld cacheCalls] in *.
      exists (tr ++ (CRefRelease <$> newly)).
      rewrite Hdc, Hrc, Htr, <- app_assoc.
      split; [reflexivity|]. split; [|exact Hnp].
      unfold refsObtained, refsReleased in *. rewrite !omap_app, Hperm.
      assert (forall l : list ImmutableRef,
                 omap (fun c => match c with CGetByBlob _ _ res => res | _ => None end)
                      (CRefRelease <$> l) = []
                 /\ omap (fun c => match c with CRefRelease r => Some r | _ => None end)
                         (CRefRelease <$> l) = l) as Hrel.
      { induction l as [|r l [IH1 IH2]]; [auto|]. cbn. rewrite IH1, IH2. auto. }
      destruct (Hrel newly) as [-> ->]. rewrite app_nil_r, <- !app_assoc. reflexivity.
    + match goal with
      | |- context [deleteBlobs rootfs ?t] =>
          destruct (deleteBlobs_calls rootfs t) as [_ Hdc];
          destruct (deleteBlobs rootfs t) as [[] t3]
      end.
      cbn [fst snd rs_log rs_worker cacheWorld cacheCalls] in *.
      exists []. rewrite Hdc, app_nil_r. auto.
  - match goal with
    | |- context [deleteBlobs rootfs ?t] =>
        destruct (deleteBlobs_calls rootfs t) as [_ Hdc];
        destruct (deleteBlobs rootfs t) as [[] t3]
    end.
    cbn [fst snd rs_log rs_worker cacheWorld cacheCalls] in *.
    exists []. rewrite Hdc, app_nil_r. auto.
Qed.

(** FromRemote fails before it touches the cache manager when the download
    fails, when the download manager returns another number of diff IDs than
    there are layers (the error names both counts), and when the remote has
    no descriptor at all (the error then is "unreachable"). *)
Theorem FromRemote_fails_before_cache (remote : Remote) (s : RemoteState W) :
  match getLayers (Descriptors remote) with
  | Err _ => True
  | Ok rootfs =>
      match Download ((fun l => mkLayerDescriptor (rl_Blob l) (desc_Digest (rl_Diff l))
                                                  (Provider remote)) <$> rootfs)
                     (cacheWorld (rs_worker s)) with
      | (Err err, _) =>
          (FromRemote remote s).1 = Return (Err err)
          /\ cacheCalls (rs_worker (FromRemote remote s).2) = cacheCalls (rs_worker s)
      | (Ok rootFS, _) =>
          if decide (length (DiffIDs rootFS) = length rootfs)
          then
            if decide (Descriptors remote = [])
            then (FromRemote remote s).1 = Return (Err (ErrorString "unreachable"))
                 /\ cacheCalls (rs_worker (FromRemote remote s).2)
                    = cacheCalls (rs_worker s)
            else True
          else
            (FromRemote remote s).1
            = Return (Err (ErrorString
                (String.append "invalid layer count mismatch "
                   (String.append (pretty (len (DiffIDs rootFS)))
                      (String.append " vs " (pretty (len rootfs)))))))
            /\ cacheCalls (rs_worker (FromRemote remote s).2)
               = cacheCalls (rs_worker s)
      end
  end.
Proof.
  unfold FromRemote.
  destruct (getLayers (Descriptors remote)) as [rootfs|err] eqn:Hget; [|exact I].
  pose proof (getLayers_length _ _ Hget) as Hl.
  unfold bind, onRemote, ret.
  destruct (Download _ (cacheWorld (rs_worker s))) as [[rootFS|err] w'].
  - destruct (decide (length (DiffIDs rootFS) = length rootfs)) as [Heq|Hne].
    + destruct (decide (Descriptors remote = [])) as [Hnil|]; [|exact I].
      rewrite Hnil in Hl. destruct rootfs; [|discriminate].
      destruct (DiffIDs rootFS) eqn:Hd; [|discriminate].
      cbn. auto.
    + assert ((len (DiffIDs rootFS)
               =? len ((fun l => mkLayerDescriptor (rl_Blob l) (desc_Digest (rl_Diff l))
                                                   (Provider remote)) <$> rootfs))
              = false) as Hlen.
      { apply Z.eqb_neq. unfold len. rewrite length_fmap. lia. }
      rewrite Hlen. cbn [negb].
      match goal with
      | |- context [deleteBlobs rootfs ?t] =>
          destruct (deleteBlobs_calls rootfs t) as [_ Hdc];
          destruct (deleteBlobs rootfs t) as [[] t3]
      end.
      cbn [fst snd rs_log rs_worker cacheWorld cacheCalls] in *.
      unfold len. rewrite length_fmap. auto.
  - match goal with
    | |- context [deleteBlobs rootfs ?t] =>
        destruct (deleteBlobs_calls rootfs t) as [_ Hdc];
        destruct (deleteBlobs rootfs t) as [[] t3]
    end.
    cbn [fst snd rs_log rs_worker cacheWorld cacheCalls] in *. auto.
Qed.

(** The diff IDs the loop of FromRemote asks GetByBlob for when it returns
    a ref: every prefix from the index it starts at to the last one, each in
    full. *)
Lemma fromRemoteLoop_blobs (remote : Remote) (diffIDs : list DiffID) (n : nat) :
  forall (a : Z) (deferred : list ImmutableRef) (s : RemoteState W),
    0 <= a ->
    a + Z.of_nat n = len (Descriptors remote) ->
    len diffIDs = len (Descriptors remote) ->
    match (fromRemoteLoop remote diffIDs (seqZ a (Z.of_nat n)) deferred s).1.1 with
    | Return (Ok _) =>
        exists tr : list CacheCall,
          cacheCalls (rs_worker (fromRemoteLoop remote diffIDs
                                   (seqZ a (Z.of_nat n)) deferred s).2)
          = cacheCalls (rs_worker s) ++ tr
          /\ blobsAsked tr
             = mjoin ((fun i => slice_to diffIDs (i + 1)) <$> seqZ a (Z.of_nat n))
    | _ => True
    end.
Proof.
  induction n as [|n IH]; intros a deferred s Ha Hsum Hlen.
  - rewrite seqZ_nil by lia. cbn. exact I.
  - rewrite seqZ_cons by lia.
    replace (Z.pred (Z.of_nat (S n))) with (Z.of_nat n) by lia.
    cbn [fromRemoteLoop fmap list_fmap mjoin list_join].
    destruct (index_in_range (Descriptors remote) a ltac:(lia)) as [desc Hdesc].
    unfold bind, clock, onWorker, ret. rewrite Hdesc.
    destruct (match desc_Annotations desc !! labelCreatedAt with
              | Some tmstr => time_UnmarshalText tmstr
              | None => Ok (time_Now (cacheWorld (rs_worker s)))
              end) as [tm|err]; [|exact I].
    set (opts := [WithDescription _; WithCreationTime tm]).
    assert (slice_to diffIDs (a + 1) <> []) as Hne.
    { unfold slice_to, len in *. destruct diffIDs; [cbn in Hlen; lia|].
      replace (Z.to_nat (a + 1)) with (S (Z.to_nat a)) by lia. discriminate. }
    destruct (getRef_trace opts _ Hne (rs_worker s))
      as (trg & k & Htrg & Hk & Hasked & Hres).
    destruct (getRef (slice_to diffIDs (a + 1)) opts (rs_worker s)) as [p ws].
    cbn [fst snd] in *.
    destruct p as [[ref|err]|msg]; [|exact I|exact I].
    subst k. rewrite firstn_all in Hasked.
    destruct (Z.eqb_spec a (len (Descriptors remote) - 1)) as [Hlast|Hmore].
    + assert (n = 0%nat) as -> by lia. rewrite seqZ_nil by lia.
      cbn. exists trg. rewrite app_nil_r. auto.
    + specialize (IH (Z.succ a) (ref :: deferred) (mkRemoteState ws (rs_log s))
                     ltac:(lia) ltac:(lia) Hlen).
      destruct (fromRemoteLoop remote diffIDs (seqZ (Z.succ a) (Z.of_nat n))
                  (ref :: deferred) (mkRemoteState ws (rs_log s)))
        as [[out def] t1].
      cbn [fst snd rs_worker] in *.
      destruct out as [[r|e]|m]; try exact I.
      destruct IH as (tr & Htr & Hblobs).
      exists (trg ++ tr). rewrite Htr, Htrg, <- app_assoc.
      split; [reflexivity|].
      unfold blobsAsked in *. rewrite omap_app, Hasked, Hblobs. reflexivity.
Qed.

(** When FromRemote returns a ref, the download manager gave one diff ID per
    descriptor, and getRef was run on every prefix of them in turn, each
    from its first diff ID on: GetByBlob was asked for the first diff ID,
    then for the first two, and so on up to all N of them. *)
Theorem FromRemote_resolves_every_prefix (remote : Remote) (s : RemoteState W) :
  match (FromRemote remote s).1 with
  | Return (Ok _) =>
      exists (diffIDs : list DiffID) (tr : list CacheCall),
        length diffIDs = length (Descriptors remote)
        /\ cacheCalls (rs_worker (FromRemote remote s).2)
           = cacheCalls (rs_worker s) ++ tr
        /\ blobsAsked tr
           = mjoin ((fun n => take (S n) diffIDs) <$> seq 0 (length diffIDs))
  | _ => True
  end.
Proof.
  unfold FromRemote.
  destruct (getLayers (Descriptors remote)) as [rootfs|err] eqn:Hget; [|exact I].
  pose proof (getLayers_length _ _ Hget) as Hl.
  unfold bind, onRemote, ret.
  destruct (Download _ (cacheWorld (rs_worker s))) as [[rootFS|err] w'].
  2:{ destruct (deleteBlobs rootfs _) as [[] t3]. exact I. }
  destruct (len (DiffIDs rootFS) =? len _) eqn:Hlen; cbn [negb].
  2:{ destruct (deleteBlobs rootfs _) as [[] t3]. exact I. }
  apply Z.eqb_eq in Hlen. unfold len in Hlen. rewrite length_fmap in Hlen.
  match goal with
  | |- context [fromRemoteLoop remote (DiffIDs rootFS) ?todo [] ?t] =>
      pose proof (fromRemoteLoop_blobs remote (DiffIDs rootFS)
                    (length (DiffIDs rootFS)) 0 [] t ltac:(lia)
                    ltac:(unfold len; lia) ltac:(unfold len; lia)) as Hblobs;
      change (seqZ 0 (Z.of_nat (length (DiffIDs rootFS)))) with todo in Hblobs;
      destruct (fromRemoteLoop remote (DiffIDs rootFS) todo [] t) as [[out def] t1]
  end.
  cbn [fst snd] in *.
  destruct (releaseRefs_calls def t1) as [_ Hrc].
  destruct (releaseRefs def t1) as [[] t2]. cbn [fst snd] in *.
  match goal with
  | |- context [deleteBlobs rootfs ?t] =>
      destruct (deleteBlobs_calls rootfs t) as [_ Hdc];
      destruct (deleteBlobs rootfs t) as [[] t3]
  end.
  cbn [fst snd rs_log rs_worker cacheWorld cacheCalls] in *.
  destruct out as [[r|e]|m]; try exact I.
  destruct Hblobs as (tr & Htr & Hasked).
  exists (DiffIDs rootFS), (tr ++ (CRefRelease <$> def)).
  split; [lia|]. split; [rewrite Hdc, Hrc, Htr, <- app_assoc; reflexivity|].
  unfold blobsAsked in *. rewrite omap_app, Hasked.
  assert (omap (fun c => match c with CGetByBlob d _ _ => Some d | _ => None end)
               (CRefRelease <$> def) = []) as ->.
  { clear. induction def as [|r l IH]; [reflexivity|]. cbn. exact IH. }
  rewrite app_nil_r. f_equal.
  unfold seqZ, len. rewrite Nat2Z.id, <- list_fmap_compose.
  apply list_fmap_ext. intros _ n _. cbn. unfold slice_to.
  f_equal. lia.
Qed.

End FromRemoteFurther.

(** ** The further properties on the in-memory stores *)

(** A context cancelled only from the fifth observation on: the scan of the
    four layers returns the full 125 bytes and no error. *)
Lemma ImageDiskUsage_cancel_after_last_layer_witness :
  (forall j, (j < length (map_to_list (layerStore_Map sim_stores)))%nat ->
             (fun n : nat => if (n <? 4)%nat then None else Some ErrCanceled) j = None)
  /\ ImageDiskUsage (fun n => if (n <? 4)%nat then None else Some ErrCanceled)
                    sim_stores 0%nat
     = ((125, None), 4%nat).
Proof.
  assert (forall j, (j < length (map_to_list (layerStore_Map sim_stores)))%nat ->
                    (fun n : nat => if (n <? 4)%nat then None else Some ErrCanceled) j
                    = None) as Hlive.
  { intros j Hj. vm_compute in Hj.
    destruct (Nat.ltb_spec j 4) as [|Hge]; [reflexivity|lia]. }
  split; [exact Hlive|].
  unfold ImageDiskUsage.
  rewrite (ImageDiskUsage_cancel_after_last_layer sim_stores _
             (map_to_list (imageStore_Map sim_stores))
             (map_to_list (layerStore_Map sim_stores))
             (reflexivity _) (reflexivity _) Hlive).
  vm_compute. reflexivity.
Defined.

(** Bounds 3 and 5 replaced by 2 and 7 on the two managers. *)
Lemma UpdateConfig_applies_nonzero_witness :
  (2 <> 0) /\ (7 <> 0)
  /\ (UpdateConfig 2 7 (mkTransfers (Some 3) (Some 5) [])).2
     = mkTransfers (Some 2) (Some 7)
                   [DownloadSetConcurrency 2; UploadSetConcurrency 7].
Proof.
  split; [discriminate|]. split; [discriminate|].
  pose proof (UpdateConfig_applies_nonzero
                (mkTransfers (DM:=Z) (UM:=Z) (Some 3) (Some 5) []) 2 7
                ltac:(discriminate) ltac:(discriminate)) as (Hd & Hu & Hc).
  destruct (UpdateConfig 2 7 (mkTransfers (Some 3) (Some 5) [])).2 as [dm um cs].
  cbn in Hd, Hu, Hc. subst. reflexivity.
Defined.

(** Three diff IDs on the cache manager that always finds the blob: the two
    intermediate refs are released, the third is returned. *)
Lemma getRef_releases_intermediate_refs_witness :
  ["d1"; "d2"; "d3"] <> ([] : list DiffID)
  /\ exists tr : list CacheCall,
       cacheCalls (getRef ["d1"; "d2"; "d3"] [] (mkWorkerState 0 [])).2 = [] ++ tr
       /\ refsObtained tr = refsReleased tr ++ [mkRef "/d1/d2/d3"]
       /\ parentsPassed tr = None :: (Some <$> refsReleased tr).
Proof.
  split; [discriminate|].
  exact (getRef_releases_intermediate_refs [] ["d1"; "d2"; "d3"]
           (mkWorkerState 0 []) ltac:(discriminate)).
Defined.


(** A remote of two layers on the in-memory worker: the ref of the full
    chain is returned, the ref of the first layer is released twice (once
    inside getRef, once deferred), and both blobs are deleted at the end. *)
Example FromRemote_sim_two_layers :
  FromRemote
    (mkRemote
       [mkDescriptor "application/vnd.oci.image.layer.v1.tar+gzip" "sha256:b1" 10
                     {[ "containerd.io/uncompressed" := "sha256:d1" ]};
        mkDescriptor "application/vnd.oci.image.layer.v1.tar+gzip" "sha256:b2" 20
                     {[ "containerd.io/uncompressed" := "sha256:d2" ]}]
       (otherProvider "registry"))
    (mkRemoteState (mkWorkerState 0 []) [])
  = (Return (Ok (mkRef "/sha256:d1/sha256:d2")),
     mkRemoteState
       (mkWorkerState 1
          [CGetByBlob "sha256:d1" None (Some (mkRef "/sha256:d1"));
           CGetByBlob "sha256:d1" None (Some (mkRef "/sha256:d1"));
           CGetByBlob "sha256:d2" (Some (mkRef "/sha256:d1"))
                      (Some (mkRef "/sha256:d1/sha256:d2"));
           CRefRelease (mkRef "/sha256:d1");
           CRefRelease (mkRef "/sha256:d1")])
       [RDownload
          [mkLayerDescriptor
             (mkDescriptor "application/vnd.oci.image.layer.v1.tar+gzip"
                           "sha256:b1" 10 ∅)
             "sha256:d1" (otherProvider "registry");
           mkLayerDescriptor
             (mkDescriptor "application/vnd.oci.image.layer.v1.tar+gzip"
                           "sha256:b2" 20 ∅)
             "sha256:d2" (otherProvider "registry")]
          true;
        RDownloadRelease;
        RContentDelete "sha256:b1";
        RContentDelete "sha256:b2"]).
Proof. vm_compute. reflexivity. Qed.

(** A remote without descriptors on the in-memory worker. *)
Example FromRemote_sim_no_layer :
  (FromRemote (mkRemote [] emptyProvider) (mkRemoteState (mkWorkerState 0 []) [])).1
  = Return (Err (ErrorString "unreachable")).
Proof. vm_compute. reflexivity. Qed.

(** The remote GetRemotes makes of a ref, read back. *)
Example getLayers_sim_of_GetRemotes :
  (GetRemotes (Some (mkRef "r1")) false false (mkAccessState 0 [])).1
  = Ok [mkRemote [mkDescriptor MediaTypeDockerSchema2Layer "sha256:d1" (-1) ∅;
                  mkDescriptor MediaTypeDockerSchema2Layer "sha256:d2" (-1) ∅]
                 emptyProvider]
  /\ getLayers [mkDescriptor MediaTypeDockerSchema2Layer "sha256:d1" (-1) ∅;
                mkDescriptor MediaTypeDockerSchema2Layer "sha256:d2" (-1) ∅]
     = Err (ErrorString "sha256:d1 missing uncompressed digest").
Proof. split; vm_compute; reflexivity. Qed.
